(** * SQANTI3 filter wrapper: a shallow embedding of [sqanti3_filter.py]

    The development follows the script top-down:

    - Python string primitives the script relies on ([startswith],
      [readline], file iteration, [strip], [rfind], slicing);
    - the process state (regular files, standard output, standard error)
      and a small state-and-exception monad for [sys.exit] and uncaught
      exceptions;
    - [filter_files], [run_ML] and [main], translated statement by
      statement;
    - the rules decision engine, which the script calls but does not
      define, taken from the specification;
    - the properties.

    Library functions of Biopython ([SeqIO.parse], [SeqIO.write]), cupcake
    ([collapseGFFReader], [write_collapseGFF_format], [GMAPSAMReader]), of
    [os.path] and the [Rscript] subprocess are the fields of the class
    [Libraries], over which the script is parameterised.

    What is left out: [argparse] (the arguments are taken as parsed, with a
    sub-command given), and the probe [Rscript --version] the module runs
    when it is loaded, which is taken to have succeeded.  Text is ASCII,
    as Python's text mode presents it, with line ends already translated
    to a line feed. *)

From Stdlib Require Import QArith Ascii.
From stdpp Require Import base gmap strings list sets pretty.

Close Scope Q_scope.
Local Open Scope Z_scope.

(** ** Python string primitives *)

Module Py.

(** The line feed character, written ['\n'] in the source. *)
Definition nl : string := String "010"%char EmptyString.

(** [s.startswith(pre)]. *)
Definition startswith (s pre : string) : bool := String.prefix pre s.

(** [h.readline()] on a freshly opened text file with content [s]: the
    characters up to and including the first line feed, or all of [s]
    when it has none. *)
Fixpoint readline (s : string) : string :=
  match s with
  | EmptyString => EmptyString
  | String c s' =>
      if Ascii.eqb c "010"%char then String c EmptyString
      else String c (readline s')
  end.

(** What is left of the content after the first [readline]. *)
Fixpoint after_line (s : string) : string :=
  match s with
  | EmptyString => EmptyString
  | String c s' => if Ascii.eqb c "010"%char then s' else after_line s'
  end.

(** [for line in open(path)]: the lines of the content, each with its
    terminating line feed (the last one may lack it).  The fuel is the
    length of the content, which bounds the number of lines.  A line ends
    at a line feed only, as in Python's text mode on a content without
    carriage returns. *)
Fixpoint lines_fuel (fuel : nat) (s : string) : list string :=
  match fuel with
  | O => []
  | S fuel' =>
      match s with
      | EmptyString => []
      | _ => readline s :: lines_fuel fuel' (after_line s)
      end
  end.

Definition lines (s : string) : list string :=
  lines_fuel (String.length s) s.

(** [str.isspace] on the ASCII range: TAB, LF, VT, FF, CR, the four
    separators FS, GS, RS, US, and the space. *)
Definition isspace (c : ascii) : bool :=
  match c with
  | "009" | "010" | "011" | "012" | "013"
  | "028" | "029" | "030" | "031" | " " => true
  | _ => false
  end%char.

Fixpoint lstrip (s : string) : string :=
  match s with
  | EmptyString => EmptyString
  | String c s' => if isspace c then lstrip s' else s
  end.

(** [rstrip] by structural recursion: a character is dropped when it is
    white space and everything after it has been dropped. *)
Fixpoint rstrip (s : string) : string :=
  match s with
  | EmptyString => EmptyString
  | String c s' =>
      match rstrip s' with
      | EmptyString => if isspace c then EmptyString else String c EmptyString
      | r => String c r
      end
  end.

(** [s.strip()]. *)
Definition strip (s : string) : string := rstrip (lstrip s).

(** [s.rfind(sub)]: the highest index at which [sub] occurs in [s], or
    [-1].  [i] is the index of the head of [s] in the original string and
    [last] the highest match seen so far. *)
Fixpoint rfind_from (sub s : string) (i last : Z) : Z :=
  let last' := if String.prefix sub s then i else last in
  match s with
  | EmptyString => last'
  | String _ s' => rfind_from sub s' (i + 1) last'
  end.

Definition rfind (s sub : string) : Z := rfind_from sub s 0 (-1).

(** Index normalisation of a slice bound: negative bounds count from the
    end, and the result is clamped to [0, len]. *)
Definition clamp (len i : Z) : Z :=
  if bool_decide (i < 0) then Z.max (i + len) 0 else Z.min i len.

(** [s[a:b]]. *)
Definition slice (s : string) (a b : Z) : string :=
  let len := Z.of_nat (String.length s) in
  let a' := clamp len a in
  let b' := clamp len b in
  if bool_decide (a' < b')
  then String.substring (Z.to_nat a') (Z.to_nat (b' - a')) s
  else EmptyString.

(** Python floats, as far as the script uses them: ordered comparison
    against a literal.  A finite double is the rational it denotes, so
    comparing two finite doubles is comparing two rationals; NaN compares
    false with everything. *)
Inductive float := Finite (q : Q) | PosInf | NegInf | NaN.

Definition float_lt (x y : float) : bool :=
  match x, y with
  | Finite a, Finite b => negb (Qle_bool b a)
  | NegInf, Finite _ | NegInf, PosInf | Finite _, PosInf => true
  | _, _ => false
  end.

Definition float_gt (x y : float) : bool := float_lt y x.

End Py.

(** ** Process state and effects *)

(** Exceptions the script can leave uncaught. *)
Inductive exn :=
| FileNotFoundError (path : string)
| AttributeError (attr : string)
| NameError (name : string)
| TypeError.

(** How a computation ends: normally, through [sys.exit(code)], or with an
    uncaught exception. *)
Inductive result (A : Type) :=
| Ok (a : A)
| Exit (code : Z)
| Raise (e : exn).
Arguments Ok {A} a.
Arguments Exit {A} code.
Arguments Raise {A} e.

(** The part of the process environment the script touches.  [files] maps
    the path of a regular file to its text; [stdout] and [stderr] hold the
    lines printed so far, oldest first.  Directories are not modelled:
    [os.path.exists] and [os.path.isfile] coincide, [os.makedirs] does not
    change [files], and opening a path for writing always succeeds. *)
Record World := mkWorld {
  files : gmap string string;
  stdout : list string;
  stderr : list string
}.

Definition set_files (f : gmap string string → gmap string string) (w : World) : World :=
  mkWorld (f (files w)) (stdout w) (stderr w).

Definition M (A : Type) : Type := World → result A * World.

#[global] Instance M_ret : MRet M := λ A a w, (Ok a, w).

#[global] Instance M_bind : MBind M := λ A B f m w,
  match m w with
  | (Ok a, w') => f a w'
  | (Exit c, w') => (Exit c, w')
  | (Raise e, w') => (Raise e, w')
  end.

Definition raise {A} (e : exn) : M A := λ w, (Raise e, w).

(** [sys.exit(code)]. *)
Definition sys_exit {A} (code : Z) : M A := λ w, (Exit code, w).

(** [print(s, file=sys.stdout)] and [print(s, file=sys.stderr)]. *)
Definition print_stdout (s : string) : M unit :=
  λ w, (Ok (), mkWorld (files w) (stdout w ++ [s]) (stderr w)).

Definition print_stderr (s : string) : M unit :=
  λ w, (Ok (), mkWorld (files w) (stdout w) (stderr w ++ [s])).

(** [os.path.exists(p)] / [os.path.isfile(p)]. *)
Definition os_path_exists (p : string) : M bool :=
  λ w, (Ok (bool_decide (is_Some (files w !! p))), w).

Definition os_path_isfile (p : string) : M bool := os_path_exists p.

(** [open(p)] followed by reading: the text of the file, or
    [FileNotFoundError]. *)
Definition open_read (p : string) : M string := λ w,
  match files w !! p with
  | Some c => (Ok c, w)
  | None => (Raise (FileNotFoundError p), w)
  end.

(** [open(p, 'w')]: creates the file or truncates it. *)
Definition open_write (p : string) : M unit :=
  λ w, (Ok (), set_files (insert p EmptyString) w).

(** [f.write(s)] on a handle opened on [p] for writing: appends. *)
Definition write (p s : string) : M unit :=
  λ w, (Ok (), set_files (insert p (default EmptyString (files w !! p) +:+ s)) w).

(** [if c: body]. *)
Definition when (c : bool) (body : M unit) : M unit :=
  if c then body else mret ().

(** [if o is not None: body(o)]. *)
Definition when_some {A} (o : option A) (body : A → M unit) : M unit :=
  match o with Some a => body a | None => mret () end.

(** [for x in l: body(x)]. *)
Fixpoint for_ {A} (l : list A) (body : A → M unit) : M unit :=
  match l with
  | [] => mret ()
  | x :: l' => body x;; for_ l' body
  end.

(** ** Rules decision engine *)

Module RulesEngine.

Inductive category :=
| FSM | ISM | NIC | NNC
| antisense | intergenic | genic
| genic_intron | fusion
| other_category.

(** One row of the classification table, with the attributes the
    specification lists for an isoform record. *)
Record IsoformRecord := mkIsoformRecord {
  id : string;
  structural_category : category;
  intrapriming_flag : bool;
  has_polyA_motif : bool;
  is_RT_switching : bool;
  all_junctions_canonical : bool;
  all_junctions_short_read_supported : bool;
  min_junction_coverage : option Z;
  is_mono_exonic : bool;
  distance_to_annotated_3prime_end : option Z
}.

Record RulesParameters := mkRulesParameters {
  intrapriming_adenine_threshold : Py.float;
  run_A_length_threshold : Z;
  min_junction_coverage_threshold : Z;
  max_distance_to_known_3prime_end : Z;
  filter_mono_exonic : bool
}.

(** No unrescued intrapriming: NOT intrapriming OR has_polyA_motif. *)
Definition no_unrescued_intrapriming (r : IsoformRecord) : bool :=
  negb (intrapriming_flag r) || has_polyA_motif r.

(** all_junctions_canonical OR all_junctions_short_read_supported. *)
Definition junction_support (r : IsoformRecord) : bool :=
  all_junctions_canonical r || all_junctions_short_read_supported r.

(** Modelled from the spec: the category-specific test of the Rules
    Decision Engine.  The script calls [run_rules], which it neither
    defines nor imports, so the policy is taken from section 4.2: FSM, ISM
    and NIC pass unless intrapriming is not rescued by a polyA motif; NNC,
    antisense, intergenic and genic need the three-way conjunction; any
    other category is discarded. *)
Definition category_test (r : IsoformRecord) : bool :=
  match structural_category r with
  | FSM | ISM | NIC => no_unrescued_intrapriming r
  | NNC | antisense | intergenic | genic =>
      no_unrescued_intrapriming r && negb (is_RT_switching r) && junction_support r
  | _ => false
  end.

(** Modelled from the spec: the verdict of the Rules Decision Engine for
    one record, which is missing from the script together with
    [run_rules].  The mono-exonic modifier of section 4.2 is applied after
    the category-specific test and forces a discard; the coverage and
    distance thresholds act where the flags are computed, not here. *)
Definition keep (p : RulesParameters) (r : IsoformRecord) : bool :=
  if filter_mono_exonic p && is_mono_exonic r then false
  else category_test r.

(** Modelled from the spec: the Retention Set Builder of section 4.3 for
    the rules strategy, the identifiers of the records the engine keeps. *)
Definition retention_set (p : RulesParameters) (table : list IsoformRecord) : gset string :=
  list_to_set (id <$> filter (λ r, keep p r = true) table).

(** The categories of the lenient rule and those of the strict rule. *)
Definition lenient_category (c : category) : Prop :=
  c = FSM ∨ c = ISM ∨ c = NIC.

Definition strict_category (c : category) : Prop :=
  c = NNC ∨ c = antisense ∨ c = intergenic ∨ c = genic.

(** NOT intrapriming OR has_polyA_motif, on the flags of the record. *)
Definition lenient_condition (r : IsoformRecord) : Prop :=
  intrapriming_flag r = false ∨ has_polyA_motif r = true.

(** The three conditions of the strict rule, all at once. *)
Definition strict_conditions (r : IsoformRecord) : Prop :=
  (intrapriming_flag r = false ∨ has_polyA_motif r = true)
  ∧ is_RT_switching r = false
  ∧ (all_junctions_canonical r = true ∨ all_junctions_short_read_supported r = true).

(** The mono-exonic modifier does not apply to the record. *)
Definition modifier_aside (p : RulesParameters) (r : IsoformRecord) : Prop :=
  filter_mono_exonic p && is_mono_exonic r = false.

(** Default parameters, those with the mono-exonic filter switched on,
    and two records: a mono-exonic intergenic isoform that meets the three
    strict conditions, and a multi-exonic NIC isoform with intrapriming
    rescued by a polyA motif. *)
Definition default_parameters : RulesParameters :=
  mkRulesParameters (Py.Finite (6 # 10)) 6 3 50 false.

Definition mono_exonic_filtering : RulesParameters :=
  mkRulesParameters (Py.Finite (6 # 10)) 6 3 50 true.

Definition intergenic_mono_exon : IsoformRecord :=
  mkIsoformRecord "PB.7.1" intergenic false false false true false None true None.

Definition NIC_rescued : IsoformRecord :=
  mkIsoformRecord "PB.1.1" NIC true true false false false (Some 2) false (Some 12).

End RulesEngine.

(** ** The script *)

(** Arguments of the [rules] sub-command. *)
Record RulesArgs := mkRulesArgs {
  runAlength : Z;
  max_dist_to_known_end : Z;
  min_cov : Z
}.

(** Arguments of the [ML] sub-command.  [force_fsm_in] and
    [intermediate_files] default to [False] ([None] here) and otherwise hold
    the text given on the command line. *)
Record MLArgs := mkMLArgs {
  percent_training : Py.float;
  TP : option string;
  TN : option string;
  threshold : Py.float;
  force_fsm_in : option string;
  intermediate_files : option string;
  remove_columns : option string;
  max_class_size : Z
}.

Inductive Subcommand :=
| rules (r : RulesArgs)
| ML (m : MLArgs).

(** The namespace returned by [parser.parse_args()] when a sub-command was
    given: the common arguments and those of the sub-command.  Optional
    arguments without a default are [None] when absent. *)
Record Args := mkArgs {
  sqanti_class : string;
  isoforms : option string;
  gtf : option string;
  sam : option string;
  faa : option string;
  output : option string;
  dir : option string;
  intrapriming : Py.float;
  filter_mono_exonic : bool;
  subcommand : Subcommand
}.

Definition set_sqanti_class (v : string) (a : Args) : Args :=
  mkArgs v (isoforms a) (gtf a) (sam a) (faa a) (output a) (dir a)
         (intrapriming a) (filter_mono_exonic a) (subcommand a).

Definition set_dir (v : string) (a : Args) : Args :=
  mkArgs (sqanti_class a) (isoforms a) (gtf a) (sam a) (faa a) (output a)
         (Some v) (intrapriming a) (filter_mono_exonic a) (subcommand a).

Definition set_output (v : string) (a : Args) : Args :=
  mkArgs (sqanti_class a) (isoforms a) (gtf a) (sam a) (faa a) (Some v)
         (dir a) (intrapriming a) (filter_mono_exonic a) (subcommand a).

(** [str(x)] of an optional string argument, and of the booleans and
    defaults that [str.format] renders. *)
Definition str_opt (o : option string) : string := default "None" o.
Definition str_bool (b : bool) : string := if b then "True" else "False".
Definition str_flag (o : option string) : string := default "False" o.

(** [a + "/" + b] on two arguments that may be [None]: string
    concatenation, or [TypeError]. *)
Definition path_join (a b : option string) : M string :=
  match a, b with
  | Some a, Some b => mret (a +:+ "/" +:+ b)
  | _, _ => raise TypeError
  end.

(** Reading an attribute the namespace does not have. *)
Definition getattr_absent (attr : string) : M string :=
  raise (AttributeError attr).

(** Calling a global name that is bound nowhere in the module. *)
Definition call_undefined {A} (name : string) : M A :=
  raise (NameError name).

Definition RSCRIPT_ML : string := "SQANTI3_MLfilter.R".

Definition doesnt_exist (p : string) : string :=
  "ERROR: " +:+ p +:+ " doesn't exist. Abort!".

Definition output_written (name : string) : string :=
  "Output written to: " +:+ name.

(** What the script takes from its libraries and from its environment. *)
Class Libraries := {
  (** Biopython: a parsed sequence record with the attributes the script
      reads, the parser and the writer, both indexed by the format name. *)
  SeqRecord : Type;
  SeqRecord_id : SeqRecord → string;
  SeqRecord_description : SeqRecord → string;
  SeqRecord_seq : SeqRecord → string;
  SeqIO_parse : string → string → list SeqRecord;
  SeqIO_write : SeqRecord → string → string;
  (** cupcake: collapsed-GFF records (one per transcript, with all its
      feature lines), their reader and their writer. *)
  GFFRecord : Type;
  seqid : GFFRecord → string;
  collapseGFFReader : string → list GFFRecord;
  write_collapseGFF_format : GFFRecord → string;
  (** cupcake: the SAM reader, with its header text and its records. *)
  SAMRecord : Type;
  qID : SAMRecord → string;
  record_line : SAMRecord → string;
  GMAPSAMReader_header : string → string;
  GMAPSAMReader_records : string → list SAMRecord;
  (** [os.path.abspath], [os.path.dirname]; the module globals
      [RSCRIPTPATH] and [utilitiesPath]; [str] of a float; and the effect
      on the process state of [subprocess.call(cmd, shell=True)]. *)
  abspath : string → string;
  dirname : string → string;
  RSCRIPTPATH : string;
  utilitiesPath : string;
  str_float : Py.float → string;
  subprocess_call : string → World → World
}.

(** ** A small instance *)

Module Example.

(** Stand-ins for the parsers: every line of the text is a record, named
    by the line without its first character (the ['>'] or ['@'] marker)
    for the sequence and annotation readers and by the whole line for the
    SAM reader, whose header is the first line. *)
Definition drop_marker (s : string) : string :=
  match s with String _ t => t | EmptyString => EmptyString end.

Definition parse_lines (content : string) : list string :=
  (λ l, drop_marker (Py.strip l)) <$> Py.lines content.

Definition show_float (x : Py.float) : string :=
  match x with
  | Py.Finite q => pretty (Qnum q) +:+ "/" +:+ pretty (Zpos (Qden q))
  | Py.PosInf => "inf"
  | Py.NegInf => "-inf"
  | Py.NaN => "nan"
  end.

(** A stand-in for the R script: it writes an inclusion list. *)
Definition Rscript (cmd : string) (w : World) : World :=
  set_files (insert "/data/out/run_inclusion-list.txt"
                    ("PB.1.1" +:+ Py.nl +:+ "PB.3.1" +:+ Py.nl)) w.

Definition libs : Libraries := {|
  SeqRecord := string;
  SeqRecord_id := λ r, r;
  SeqRecord_description := λ r, r;
  SeqRecord_seq := λ _, "ACGT";
  SeqIO_parse := λ content _, parse_lines content;
  SeqIO_write := λ r t, (if String.eqb t "fastq" then "@" else ">") +:+ r +:+ Py.nl;
  GFFRecord := string;
  seqid := λ r, r;
  collapseGFFReader := parse_lines;
  write_collapseGFF_format := λ r, "#" +:+ r +:+ Py.nl;
  SAMRecord := string;
  qID := λ r, r;
  record_line := λ r, r;
  GMAPSAMReader_header := Py.readline;
  GMAPSAMReader_records := λ content, Py.strip <$> Py.lines (Py.after_line content);
  abspath := λ p, p;
  dirname := λ p, Py.slice p 0 (Py.rfind p "/");
  RSCRIPTPATH := "/usr/bin/Rscript";
  utilitiesPath := "/opt/SQANTI3/utilities";
  str_float := show_float;
  subprocess_call := Rscript
|}.

Definition three_records (marker : string) : string :=
  marker +:+ "PB.1.1" +:+ Py.nl +:+ marker +:+ "PB.2.1" +:+ Py.nl
  +:+ marker +:+ "PB.3.1" +:+ Py.nl.

Definition sam_text : string :=
  "@HD" +:+ Py.nl +:+ "PB.1.1" +:+ Py.nl +:+ "PB.2.1" +:+ Py.nl.

Definition world : World :=
  mkWorld
    (list_to_map
       [("/data/run_classification.txt", "isoform");
        ("/data/run.fasta", three_records ">");
        ("/data/run.fastq", three_records "@");
        ("/data/run.gtf", three_records "#");
        ("/data/run.sam", sam_text);
        ("/data/run.faa", three_records ">")])
    [] [].

Definition ids : gset string := {[ "PB.1.1"; "PB.3.1" ]}.

(** The doubles nearest to 0.6, 0.8, 0.7 and 0.24. *)
Definition d0_6 : Py.float := Py.Finite (5404319552844595 # 9007199254740992).
Definition d0_8 : Py.float := Py.Finite (3602879701896397 # 4503599627370496).
Definition d0_7 : Py.float := Py.Finite (3152519739159347 # 4503599627370496).
Definition d0_24 : Py.float := Py.Finite (1080863910568919 # 4503599627370496).

Definition ml : MLArgs := mkMLArgs d0_8 None None d0_7 None None None 3000.

Definition rl : RulesArgs := mkRulesArgs 6 50 3.

(** [sqanti3_filter.py ML /data/run_classification.txt --isoforms ... -d
    /data/out -o run] with all four companion files. *)
Definition args_ML : Args :=
  mkArgs "/data/run_classification.txt" (Some "/data/run.fasta")
         (Some "/data/run.gtf") (Some "/data/run.sam") (Some "/data/run.faa")
         (Some "run") (Some "/data/out") d0_6 false (ML ml).

(** The same with the threshold [-i 0.24]. *)
Definition args_ML_low : Args :=
  mkArgs "/data/run_classification.txt" (Some "/data/run.fasta")
         (Some "/data/run.gtf") (Some "/data/run.sam") (Some "/data/run.faa")
         (Some "run") (Some "/data/out") d0_24 false (ML ml).

(** The [rules] sub-command with the SAM file only. *)
Definition args_rules : Args :=
  mkArgs "/data/run_classification.txt" None None (Some "/data/run.sam") None
         (Some "run") (Some "/data/out") d0_6 false (rules rl).

(** A FASTA file that does not exist. *)
Definition args_missing : Args :=
  mkArgs "/data/run_classification.txt" (Some "/data/absent.fasta")
         None None None (Some "run") (Some "/data/out") d0_6 false (rules rl).

(** Arguments of the [ML] sub-command with a list of true positives
    that does not exist, and with a training proportion of 1.5. *)
Definition ml_absent_TP : MLArgs :=
  mkMLArgs d0_8 (Some "/data/absent_TP.txt") None d0_7 None None None 3000.

Definition ml_large_training : MLArgs :=
  mkMLArgs (Py.Finite (3 # 2)) None None d0_7 None None None 3000.

(** The [rules] sub-command with [-r 3], and a run on a classification
    table that does not exist. *)
Definition rl_short : RulesArgs := mkRulesArgs 3 50 3.

Definition args_no_table : Args :=
  mkArgs "/data/absent_classification.txt" None None None None
         (Some "run") (Some "/data/out") d0_6 false (rules rl).

(** A run that gives neither an output directory nor a prefix. *)
Definition args_defaults : Args :=
  mkArgs "/data/run_classification.txt" None None None None
         None None d0_6 false (ML ml).

(** Two lines of an inclusion list: an identifier between a blank and a
    tab followed by a blank, and a bare identifier. *)
Definition padded_example : list (string * string * string) :=
  [(" ", "PB.1.1", String "009" (String " " EmptyString));
   (EmptyString, "PB.3.1", EmptyString)].

(** The state of [world] after a run has left a FASTQ output behind. *)
Definition world_with_output : World :=
  set_files (insert "/data/out/run.filtered.fastq" (three_records "@")) world.

(** A run whose GTF argument is the path the GTF block writes, in a state
    where that file holds three records; and a state in which the SAM
    output path holds an alignment file. *)
Definition world_gtf_at_output : World :=
  set_files (insert "/data/out/run.filtered.gtf" (three_records "#")) world.

Definition args_gtf_at_output : Args :=
  mkArgs "/data/run_classification.txt" None
         (Some "/data/out/run.filtered.gtf") None None
         (Some "run") (Some "/data/out") d0_6 false (ML ml).

Definition world_sam_at_output : World :=
  set_files (insert "/data/out/run.filtered.sam" sam_text) world.

End Example.

Section Script.

Context {L : Libraries}.

(** *** [filter_files] *)

(** [if r.id in ids_to_keep: f.write(text)]. *)
Definition write_if_kept (ids_to_keep : gset string) (out id text : string) : M unit :=
  when (bool_decide (id ∈ ids_to_keep)) (write out text).

(** The FASTA/FASTQ block. *)
Definition filter_isoforms (prefix isoforms : string) (ids_to_keep : gset string) : M unit :=
  h ← open_read isoforms;
  let fafq_type := if Py.startswith (Py.readline h) "@" then "fastq" else "fasta" in
  let fout := prefix +:+ ".filtered." +:+ fafq_type in
  open_write fout;;
  content ← open_read isoforms;
  for_ (SeqIO_parse content fafq_type)
       (λ r, write_if_kept ids_to_keep fout (SeqRecord_id r) (SeqIO_write r fafq_type));;
  print_stdout (output_written fout).

(** The GTF block. *)
Definition filter_gtf (prefix gtf : string) (ids_to_keep : gset string) : M unit :=
  let outputGTF := prefix +:+ ".filtered.gtf" in
  open_write outputGTF;;
  content ← open_read gtf;
  for_ (collapseGFFReader content)
       (λ r, write_if_kept ids_to_keep outputGTF (seqid r) (write_collapseGFF_format r));;
  print_stdout (output_written outputGTF).

(** The SAM block. *)
Definition filter_sam (prefix sam : string) (ids_to_keep : gset string) : M unit :=
  let outputSam := prefix +:+ ".filtered.sam" in
  open_write outputSam;;
  content ← open_read sam;
  write outputSam (GMAPSAMReader_header content);;
  for_ (GMAPSAMReader_records content)
       (λ r, write_if_kept ids_to_keep outputSam (qID r) (record_line r +:+ Py.nl));;
  print_stdout (output_written outputSam).

(** [">{0}\n{1}\n".format(r.description, r.seq)]. *)
Definition faa_entry (r : SeqRecord) : string :=
  ">" +:+ SeqRecord_description r +:+ Py.nl +:+ SeqRecord_seq r +:+ Py.nl.

(** The FAA block. *)
Definition filter_faa (prefix faa : string) (ids_to_keep : gset string) : M unit :=
  let outputFAA := prefix +:+ ".filtered.faa" in
  open_write outputFAA;;
  content ← open_read faa;
  for_ (SeqIO_parse content "fasta")
       (λ r, write_if_kept ids_to_keep outputFAA (SeqRecord_id r) (faa_entry r));;
  print_stdout (output_written outputFAA).

Definition filter_files (args : Args) (ids_to_keep : gset string) : M unit :=
  prefix ← path_join (dir args) (output args);
  when_some (isoforms args) (λ p, filter_isoforms prefix p ids_to_keep);;
  when_some (gtf args) (λ p, filter_gtf prefix p ids_to_keep);;
  when_some (sam args) (λ p, filter_sam prefix p ids_to_keep);;
  when_some (faa args) (λ p, filter_faa prefix p ids_to_keep).

(** *** [run_ML] *)

(** The command line of the R script, before the optional [-p], [-n] and
    [-r] are appended.  The format string of the source is continued over
    a line inside the literal, which puts five blanks before [-e]. *)
Definition ML_cmd (args : Args) (m : MLArgs) : string :=
  RSCRIPTPATH +:+ " " +:+ utilitiesPath +:+ "/" +:+ RSCRIPT_ML
    +:+ " -c " +:+ sqanti_class args
    +:+ " -o " +:+ str_opt (output args)
    +:+ " -d " +:+ str_opt (dir args)
    +:+ " -t " +:+ str_float (percent_training m)
    +:+ " -j " +:+ str_float (threshold m)
    +:+ " -i " +:+ str_float (intrapriming args)
    +:+ " -f " +:+ str_flag (force_fsm_in m)
    +:+ "     -e " +:+ str_bool (filter_mono_exonic args)
    +:+ " -m " +:+ str_flag (intermediate_files m)
    +:+ " -z " +:+ pretty (max_class_size m).

(** [if o is not None: if not os.path.isfile(o): print; sys.exit(-1)
    else: cmd = cmd + flag.format(o)]. *)
Definition add_file_option (flag : string) (o : option string) (cmd : string) : M string :=
  match o with
  | None => mret cmd
  | Some p =>
      b ← os_path_isfile p;
      if negb b then print_stderr (doesnt_exist p);; sys_exit (-1)
      else mret (cmd +:+ flag +:+ p)
  end.

(** [set(line.strip() for line in open(inclusion_list))] on the text of
    the file. *)
Definition read_inclusion_list (content : string) : gset string :=
  list_to_set (Py.strip <$> Py.lines content).

Definition run_ML (args : Args) (m : MLArgs) : M (gset string) :=
  cmd ← add_file_option " -p " (TP m) (ML_cmd args m);
  cmd ← add_file_option " -n " (TN m) cmd;
  cmd ← add_file_option " -r " (remove_columns m) cmd;
  print_stdout cmd;;
  (λ w, (Ok (), subprocess_call cmd w));;
  prefix ← path_join (dir args) (output args);
  let inclusion_list := prefix +:+ "_inclusion-list.txt" in
  content ← open_read inclusion_list;
  mret (read_inclusion_list content).

(** *** [main], from the line after [parser.parse_args()] *)

(** [if o is not None and not os.path.exists(o): body]. *)
Definition when_missing (o : option string) (body : string → M unit) : M unit :=
  when_some o (λ p, b ← os_path_exists p; when (negb b) (body p)).

Definition intrapriming_out_of_range (x : Py.float) : bool :=
  Py.float_lt x (Py.Finite (1 # 4)) || Py.float_gt x (Py.Finite 1).

Definition percent_training_out_of_range (x : Py.float) : bool :=
  Py.float_lt x (Py.Finite 0) || Py.float_gt x (Py.Finite 1).

Definition runAlength_out_of_range (n : Z) : bool :=
  bool_decide (n < 4) || bool_decide (n > 20).

(** The checks common to both sub-commands, lines 163-185.  The first two
    companion checks read [args.isoform] and [args.gtf_file], attributes
    the namespace does not have, while building their message. *)
Definition check_common (args : Args) : M unit :=
  b ← os_path_isfile (sqanti_class args);
  when (negb b) (print_stderr (doesnt_exist (sqanti_class args));; sys_exit (-1));;
  when_missing (isoforms args)
    (λ _, v ← getattr_absent "isoform"; print_stderr (doesnt_exist v);; sys_exit (-1));;
  when_missing (gtf args)
    (λ _, v ← getattr_absent "gtf_file"; print_stderr (doesnt_exist v);; sys_exit (-1));;
  when_missing (sam args)
    (λ p, print_stderr (doesnt_exist p);; sys_exit (-1));;
  when_missing (faa args)
    (λ p, print_stderr (doesnt_exist p);; sys_exit (-1));;
  when (intrapriming_out_of_range (intrapriming args))
    (print_stderr ("ERROR: --intrapriming must be between 0.25-1, instead given "
                   +:+ str_float (intrapriming args) +:+ "! Abort!")).

(** Default output directory and output prefix, lines 186-195.  When a
    directory is given, lines 190-192 create it if it is absent; as
    directories are no part of [World], that branch leaves the state as
    it is. *)
Definition define_outputs (args : Args) : M Args :=
  args ← match dir args with
         | None =>
             let d := dirname (sqanti_class args) in
             print_stderr ("Output directory not defined. All the outputs will be stored at "
                           +:+ d +:+ " directory");;
             mret (set_dir d args)
         | Some _ => mret args
         end;
  match output args with
  | None =>
      let c := sqanti_class args in
      let o := Py.slice c (Py.rfind c "/" + 1) (Py.rfind c "_classification.txt") in
      print_stderr ("Output name not defined. All the outputs will have the prefix " +:+ o);;
      mret (set_output o args)
  | Some _ => mret args
  end.

(** The [ML] branch, lines 203-218. *)
Definition main_ML (args : Args) (m : MLArgs) : M unit :=
  when_missing (TP m) (λ p, print_stderr (doesnt_exist p);; sys_exit (-1));;
  when_missing (TN m) (λ p, print_stderr (doesnt_exist p);; sys_exit (-1));;
  when_missing (remove_columns m) (λ p, print_stderr (doesnt_exist p);; sys_exit (-1));;
  when (percent_training_out_of_range (percent_training m))
    (print_stderr ("ERROR: --percent_training must be between 0-1, instead given "
                   +:+ str_float (intrapriming args) +:+ "! Abort!");;
     sys_exit (-1));;
  ids ← run_ML args m;
  filter_files args ids.

(** The [rules] branch, lines 222-228.  [run_rules] is bound nowhere in
    the module. *)
Definition main_rules (args : Args) (r : RulesArgs) : M unit :=
  when (runAlength_out_of_range (runAlength r))
    (print_stderr ("ERROR: --runAlength must be between 4-20, instead given "
                   +:+ pretty (runAlength r) +:+ "! Abort!");;
     sys_exit (-1));;
  ids ← call_undefined "run_rules";
  filter_files args ids.

(** Everything [main] does before it dispatches on the sub-command. *)
Definition main_prelude (args : Args) : M Args :=
  let args := set_sqanti_class (abspath (sqanti_class args)) args in
  check_common args;;
  args ← define_outputs args;
  print_stdout (Py.nl +:+ "Running SQANTI3 filtering..." +:+ Py.nl);;
  mret args.

(** The two tests [args.subcommand == 'ML'] and [args.subcommand ==
    'rules'] exclude each other, so the two [if] blocks are one match. *)
Definition main (args : Args) : M unit :=
  args ← main_prelude args;
  match subcommand args with
  | ML m => main_ML args m
  | rules r => main_rules args r
  end.

(** *** Vocabulary of the properties *)

(** The text obtained by writing the chunks of [l] one after the other. *)
Definition text_of (l : list string) : string :=
  foldr String.append EmptyString l.

(** The records of [l] whose identifier is in the retention set, in the
    order of [l]. *)
Definition retained {A} (ids : gset string) (idf : A → string) (l : list A) : list A :=
  filter (λ r, idf r ∈ ids) l.

(** The container type the FASTA/FASTQ block detects on a content. *)
Definition fafq_type_of (content : string) : string :=
  if Py.startswith (Py.readline content) "@" then "fastq" else "fasta".

(** The state a block leaves behind: its output file holds [body] and one
    line was printed. *)
Definition after_block (out body : string) (w : World) : World :=
  mkWorld (<[out := body]> (files w)) (stdout w ++ [output_written out]) (stderr w).

(** What each block writes for a given input text. *)
Definition isoforms_body (ids : gset string) (content : string) : string :=
  let t := fafq_type_of content in
  text_of ((λ r, SeqIO_write r t) <$> retained ids SeqRecord_id (SeqIO_parse content t)).

Definition gtf_body (ids : gset string) (content : string) : string :=
  text_of (write_collapseGFF_format <$> retained ids seqid (collapseGFFReader content)).

Definition sam_body (ids : gset string) (content : string) : string :=
  text_of ((λ r, record_line r +:+ Py.nl) <$> retained ids qID (GMAPSAMReader_records content)).

Definition faa_body (ids : gset string) (content : string) : string :=
  text_of (faa_entry <$> retained ids SeqRecord_id (SeqIO_parse content "fasta")).

(** Every path [filter_files] may write to under a prefix. *)
Definition outputs (prefix : string) : list string :=
  [prefix +:+ ".filtered.fasta"; prefix +:+ ".filtered.fastq";
   prefix +:+ ".filtered.gtf"; prefix +:+ ".filtered.sam";
   prefix +:+ ".filtered.faa"].

(** A declared companion file can be filtered: it exists and is none of
    the files the run writes. *)
Definition readable (w : World) (prefix : string) (o : option string) : Prop :=
  ∀ p, o = Some p → is_Some (files w !! p) ∧ p ∉ outputs prefix.

(** [kept] is exactly the selection of [input] by the retention set: the
    records with a retained identifier, all of them, in input order. *)
Definition exact_selection {A} (ids : gset string) (idf : A → string)
    (input kept : list A) : Prop :=
  kept = filter (λ r, idf r ∈ ids) input
  ∧ kept `sublist_of` input
  ∧ (∀ i, i ∈ idf <$> kept → i ∈ ids)
  ∧ (∀ i, i ∈ ids → i ∈ idf <$> input → i ∈ idf <$> kept).

(** A computation changes no file outside [P]. *)
Definition touches_only {A} (P : string → Prop) (m : M A) : Prop :=
  ∀ w q, ¬ P q → files (m w).2 !! q = files w !! q.

(** The four companion formats, the argument that declares each, the
    block that filters it and the paths the block may write. *)
Inductive Format := Sequence | Annotation | Alignment | Protein.

#[global] Instance Format_eq_dec : EqDecision Format.
Proof. solve_decision. Defined.

Definition all_formats : list Format := [Sequence; Annotation; Alignment; Protein].

Definition companion (f : Format) (args : Args) : option string :=
  match f with
  | Sequence => isoforms args
  | Annotation => gtf args
  | Alignment => sam args
  | Protein => faa args
  end.

Definition block (f : Format) : string → string → gset string → M unit :=
  match f with
  | Sequence => filter_isoforms
  | Annotation => filter_gtf
  | Alignment => filter_sam
  | Protein => filter_faa
  end.

Definition format_outputs (f : Format) (prefix : string) : list string :=
  match f with
  | Sequence => [prefix +:+ ".filtered.fasta"; prefix +:+ ".filtered.fastq"]
  | Annotation => [prefix +:+ ".filtered.gtf"]
  | Alignment => [prefix +:+ ".filtered.sam"]
  | Protein => [prefix +:+ ".filtered.faa"]
  end.

(** The guarded blocks of the formats [fs], run in that order. *)
Definition run_blocks (prefix : string) (args : Args) (ids : gset string)
    (fs : list Format) : M unit :=
  for_ fs (λ f, when_some (companion f args) (λ p, block f prefix p ids)).

(** A declared auxiliary file of the ML strategy exists. *)
Definition opt_exists (w : World) (o : option string) : Prop :=
  ∀ p, o = Some p → is_Some (files w !! p).

(** The command line handed to the shell, with the optional [-p], [-n]
    and [-r] appended. *)
Definition opt_flag (flag : string) (o : option string) : string :=
  match o with Some p => flag +:+ p | None => EmptyString end.

Definition ML_full_cmd (args : Args) (m : MLArgs) : string :=
  ((ML_cmd args m +:+ opt_flag " -p " (TP m)) +:+ opt_flag " -n " (TN m))
    +:+ opt_flag " -r " (remove_columns m).

(** The state in which [run_ML] looks for the inclusion list: the command
    was printed and the subprocess has run. *)
Definition after_Rscript (args : Args) (m : MLArgs) (w : World) : World :=
  subprocess_call (ML_full_cmd args m)
    (mkWorld (files w) (stdout w ++ [ML_full_cmd args m]) (stderr w)).

(** A text file listing the identifiers of [l], one per line. *)
Definition one_per_line (l : list string) : string :=
  text_of ((λ i, i +:+ Py.nl) <$> l).

(** The string has no white space. *)
Fixpoint no_space (s : string) : bool :=
  match s with
  | EmptyString => true
  | String c s' => negb (Py.isspace c) && no_space s'
  end.

(** The message of the intrapriming range check. *)
Definition intrapriming_message (x : Py.float) : string :=
  "ERROR: --intrapriming must be between 0.25-1, instead given "
  +:+ str_float x +:+ "! Abort!".

(** The line [main] prints before it dispatches on the sub-command. *)
Definition running_message : string :=
  Py.nl +:+ "Running SQANTI3 filtering..." +:+ Py.nl.

(** The path a block writes and the text it leaves there, for an input
    with the given content. *)
Definition block_out (f : Format) (prefix content : string) : string :=
  match f with
  | Sequence => prefix +:+ ".filtered." +:+ fafq_type_of content
  | Annotation => prefix +:+ ".filtered.gtf"
  | Alignment => prefix +:+ ".filtered.sam"
  | Protein => prefix +:+ ".filtered.faa"
  end.

Definition block_body (f : Format) (ids : gset string) (content : string) : string :=
  match f with
  | Sequence => isoforms_body ids content
  | Annotation => gtf_body ids content
  | Alignment => GMAPSAMReader_header content +:+ sam_body ids content
  | Protein => faa_body ids content
  end.

(** The path written for a format, when its companion file is declared
    and present in [w]. *)
Definition written_path (prefix : string) (args : Args) (w : World) (f : Format) : option string :=
  match companion f args with
  | Some p =>
      match files w !! p with
      | Some c => Some (block_out f prefix c)
      | None => None
      end
  | None => None
  end.

(** The paths a run of [filter_files] writes, in the order of the blocks. *)
Definition written_paths (prefix : string) (args : Args) (w : World) : list string :=
  omap (written_path prefix args w) all_formats.

(** The state after the guarded block of [f], run in [acc], when the
    companion files are as they were in [w]. *)
Definition after_format (prefix : string) (args : Args) (ids : gset string)
    (w acc : World) (f : Format) : World :=
  match companion f args with
  | Some p =>
      match files w !! p with
      | Some c => after_block (block_out f prefix c) (block_body f ids c) acc
      | None => acc
      end
  | None => acc
  end.

(** From one state to a later one of the same run: the standard error is
    the same, the standard output has only grown, and no file is gone. *)
Definition only_adds (w w' : World) : Prop :=
  stderr w' = stderr w
  ∧ (∃ l, stdout w' = stdout w ++ l)
  ∧ (∀ q, is_Some (files w !! q) → is_Some (files w' !! q)).

(** A computation keeps a relation between the state it starts in and
    the state it ends in, however it ends. *)
Definition preserves {A} (R : World → World → Prop) (m : M A) : Prop :=
  ∀ w, R w (m w).2.

(** [sub in s]: [sub] occurs somewhere in [s]. *)
Fixpoint contains (s sub : string) : bool :=
  String.prefix sub s
  || match s with
     | EmptyString => false
     | String _ s' => contains s' sub
     end.

(** The string is made of blanks and horizontal tabs. *)
Fixpoint blank (s : string) : bool :=
  match s with
  | EmptyString => true
  | String c s' => (Ascii.eqb c " " || Ascii.eqb c "009") && blank s'
  end.

(** A text file with one identifier per line, each between two runs of
    blanks. *)
Definition padded_line (l : string * string * string) : string :=
  l.1.1 +:+ l.1.2 +:+ l.2 +:+ Py.nl.

Definition padded_lines (ls : list (string * string * string)) : string :=
  text_of (padded_line <$> ls).

(** Lines 33-39, run when the module is loaded: [RSCRIPTPATH] is what
    [distutils.spawn.find_executable] finds, [None] when there is no such
    program; [os.system] runs the command and returns its status.
    Concatenating [None] and a string raises [TypeError]. *)
Definition module_level (find_executable : string → option string)
    (os_system : string → World → Z * World) : M (option string) :=
  let RSCRIPTPATH := find_executable "Rscript" in
  status ← match RSCRIPTPATH with
           | Some p => λ w, let r := os_system (p +:+ " --version") w in (Ok r.1, r.2)
           | None => raise TypeError
           end;
  when (negb (status =? 0))
    (print_stderr "Rscript executable not found! Abort!";; sys_exit (-1));;
  mret RSCRIPTPATH.

(** The string has no line feed. *)
Fixpoint no_line_feed (s : string) : bool :=
  match s with
  | EmptyString => true
  | String c s' => negb (Ascii.eqb c "010") && no_line_feed s'
  end.

(** The string has no carriage return. *)
Fixpoint no_carriage_return (s : string) : bool :=
  match s with
  | EmptyString => true
  | String c s' => negb (Ascii.eqb c "013") && no_carriage_return s'
  end.

(** The identifiers of the records a block reads from a content. *)
Definition input_ids (f : Format) (content : string) : list string :=
  match f with
  | Sequence => SeqRecord_id <$> SeqIO_parse content (fafq_type_of content)
  | Annotation => seqid <$> collapseGFFReader content
  | Alignment => qID <$> GMAPSAMReader_records content
  | Protein => SeqRecord_id <$> SeqIO_parse content "fasta"
  end.

(** The formats whose blocks have run when the block of [f] is over. *)
Definition upto (f : Format) : list Format :=
  match f with
  | Sequence => [Sequence]
  | Annotation => [Sequence; Annotation]
  | Alignment => [Sequence; Annotation; Alignment]
  | Protein => [Sequence; Annotation; Alignment; Protein]
  end.

(** The block of [f] reads its companion file as it is in [w]: the file,
    when declared, exists, and its path is written neither by the block
    of [f] nor by a block that runs before it. *)
Definition reads_own_input (w : World) (prefix : string) (args : Args) (f : Format) : Prop :=
  ∀ p, companion f args = Some p →
       is_Some (files w !! p)
       ∧ p ∉ omap (written_path prefix args w) (upto f).

(** ** Properties *)

(** *** Strings *)

Lemma append_cons (c : ascii) (s t : string) :
  String c s +:+ t = String c (s +:+ t).
Proof. reflexivity. Qed.

Lemma append_nil_l (s : string) : EmptyString +:+ s = s.
Proof. reflexivity. Qed.

Lemma append_nil_r (s : string) : s +:+ EmptyString = s.
Proof. induction s as [|c s IH]; [done|]. by rewrite append_cons, IH. Qed.

Lemma append_assoc (a b c : string) : (a +:+ b) +:+ c = a +:+ b +:+ c.
Proof. induction a as [|x a IH]; [done|]. by rewrite !append_cons, IH. Qed.

Lemma prefix_nil (s : string) : String.prefix EmptyString s = true.
Proof. by destruct s. Qed.

Lemma prefix_one (a c : ascii) (s : string) :
  String.prefix (String a EmptyString) (String c s)
  = if ascii_dec a c then true else false.
Proof. cbn [String.prefix]. destruct (ascii_dec a c); [apply prefix_nil|done]. Qed.

(** Testing the first line for a leading ['@'] is testing the content. *)
Lemma startswith_readline (s : string) :
  Py.startswith (Py.readline s) "@" = Py.startswith s "@".
Proof.
  destruct s as [|c s]; [done|]. unfold Py.startswith. cbn [Py.readline].
  destruct (Ascii.eqb c "010"); by rewrite !prefix_one.
Qed.

Example readline_first_line :
  Py.readline ("@read1" +:+ Py.nl +:+ "ACGT" +:+ Py.nl) = "@read1" +:+ Py.nl.
Proof. reflexivity. Qed.

Example lines_keep_line_feed :
  Py.lines ("PB.1.1" +:+ Py.nl +:+ "PB.2.1") = ["PB.1.1" +:+ Py.nl; "PB.2.1"].
Proof. reflexivity. Qed.

Example strip_both_ends : Py.strip ("  PB.1.1 " +:+ Py.nl) = "PB.1.1".
Proof. reflexivity. Qed.

(** The default output prefix: the usual name of a classification table,
    and a name without the expected ending, where [rfind] returns [-1]
    and the slice drops the last character. *)
Example default_prefix :
  let c := "/data/run_classification.txt" in
  Py.slice c (Py.rfind c "/" + 1) (Py.rfind c "_classification.txt") = "run".
Proof. reflexivity. Qed.

Example default_prefix_other_name :
  let c := "/data/table.txt" in
  Py.slice c (Py.rfind c "/" + 1) (Py.rfind c "_classification.txt") = "table.tx".
Proof. reflexivity. Qed.

(** *** The monad *)

Lemma bind_Ok {A B} (m : M A) (f : A → M B) w a w' :
  m w = (Ok a, w') → (m ≫= f) w = f a w'.
Proof. intros H. unfold mbind, M_bind. by rewrite H. Qed.

Lemma bind_Raise {A B} (m : M A) (f : A → M B) w e w' :
  m w = (Raise e, w') → (m ≫= f) w = (Raise e, w').
Proof. intros H. unfold mbind, M_bind. by rewrite H. Qed.

Lemma bind_Exit {A B} (m : M A) (f : A → M B) w c w' :
  m w = (Exit c, w') → (m ≫= f) w = (Exit c, w').
Proof. intros H. unfold mbind, M_bind. by rewrite H. Qed.

Lemma set_files_insert_id p c w :
  files w !! p = Some c → set_files (insert p c) w = w.
Proof. destruct w as [f o e]; cbn. intros H. unfold set_files; cbn. by rewrite insert_id. Qed.

Lemma write_if_kept_in (ids : gset string) (out id text : string) :
  id ∈ ids → write_if_kept ids out id text = write out text.
Proof. intros H. unfold write_if_kept, when. by rewrite bool_decide_eq_true_2. Qed.

Lemma write_if_kept_out (ids : gset string) (out id text : string) :
  id ∉ ids → write_if_kept ids out id text = mret ().
Proof. intros H. unfold write_if_kept, when. by rewrite bool_decide_eq_false_2. Qed.

(** The loop of every block: the retained records are appended, in order,
    to what the output file holds. *)
Lemma for_write_if_kept {A} (ids : gset string) (out : string)
    (idf render : A → string) (l : list A) : ∀ w c,
  files w !! out = Some c →
  for_ l (λ r, write_if_kept ids out (idf r) (render r)) w
  = (Ok (), set_files (insert out (c +:+ text_of (render <$> filter (λ r, idf r ∈ ids) l))) w).
Proof.
  induction l as [|r l IH]; intros w c Hc.
  - cbn. rewrite append_nil_r. by rewrite set_files_insert_id.
  - cbn [for_].
    destruct (decide (idf r ∈ ids)) as [Hin|Hin].
    + erewrite bind_Ok; [|by rewrite write_if_kept_in].
      rewrite (IH _ (c +:+ render r)).
      * rewrite filter_cons_True by done. cbn.
        rewrite Hc. cbn. rewrite append_assoc.
        destruct w; unfold set_files; cbn. by rewrite insert_insert_eq.
      * cbn. rewrite Hc. cbn. by rewrite lookup_insert_eq.
    + erewrite bind_Ok; [|by rewrite write_if_kept_out].
      rewrite (IH _ c Hc). by rewrite filter_cons_False.
Qed.

(** *** The four blocks *)

Lemma open_read_Some p c w : files w !! p = Some c → open_read p w = (Ok c, w).
Proof. intros H. unfold open_read. by rewrite H. Qed.

Lemma open_read_None p w :
  files w !! p = None → open_read p w = (Raise (FileNotFoundError p), w).
Proof. intros H. unfold open_read. by rewrite H. Qed.

Lemma after_open_write out body w :
  set_files (insert out body) (set_files (insert out EmptyString) w)
  = set_files (insert out body) w.
Proof. destruct w; unfold set_files; cbn. by rewrite insert_insert_eq. Qed.

Lemma print_after out body w :
  print_stdout (output_written out) (set_files (insert out body) w)
  = (Ok (), after_block out body w).
Proof. reflexivity. Qed.

Lemma filter_gtf_ok prefix gtf ids w content :
  files w !! gtf = Some content →
  gtf ≠ prefix +:+ ".filtered.gtf" →
  filter_gtf prefix gtf ids w
  = (Ok (), after_block (prefix +:+ ".filtered.gtf") (gtf_body ids content) w).
Proof.
  intros Hc Hne. unfold filter_gtf.
  erewrite bind_Ok; [|reflexivity].
  erewrite bind_Ok; [|apply open_read_Some; cbn; by rewrite lookup_insert_ne].
  erewrite bind_Ok; [|apply for_write_if_kept; cbn; apply lookup_insert_eq].
  by rewrite append_nil_l, after_open_write, print_after.
Qed.

Lemma filter_faa_ok prefix faa ids w content :
  files w !! faa = Some content →
  faa ≠ prefix +:+ ".filtered.faa" →
  filter_faa prefix faa ids w
  = (Ok (), after_block (prefix +:+ ".filtered.faa") (faa_body ids content) w).
Proof.
  intros Hc Hne. unfold filter_faa.
  erewrite bind_Ok; [|reflexivity].
  erewrite bind_Ok; [|apply open_read_Some; cbn; by rewrite lookup_insert_ne].
  erewrite bind_Ok; [|apply for_write_if_kept; cbn; apply lookup_insert_eq].
  by rewrite append_nil_l, after_open_write, print_after.
Qed.

Lemma filter_sam_ok prefix sam ids w content :
  files w !! sam = Some content →
  sam ≠ prefix +:+ ".filtered.sam" →
  filter_sam prefix sam ids w
  = (Ok (), after_block (prefix +:+ ".filtered.sam")
                        (GMAPSAMReader_header content +:+ sam_body ids content) w).
Proof.
  intros Hc Hne. unfold filter_sam.
  erewrite bind_Ok; [|reflexivity].
  erewrite bind_Ok; [|apply open_read_Some; cbn; by rewrite lookup_insert_ne].
  erewrite bind_Ok; [|reflexivity].
  erewrite bind_Ok; [|apply for_write_if_kept; cbn; apply lookup_insert_eq].
  cbn. rewrite lookup_insert_eq. cbn. rewrite append_nil_l.
  destruct w; unfold set_files, after_block, print_stdout; cbn.
  by rewrite !insert_insert_eq.
Qed.

Lemma filter_isoforms_ok prefix isoforms ids w content :
  files w !! isoforms = Some content →
  isoforms ≠ prefix +:+ ".filtered." +:+ fafq_type_of content →
  filter_isoforms prefix isoforms ids w
  = (Ok (), after_block (prefix +:+ ".filtered." +:+ fafq_type_of content)
                        (isoforms_body ids content) w).
Proof.
  intros Hc Hne. unfold filter_isoforms.
  erewrite bind_Ok; [|by apply open_read_Some].
  fold (fafq_type_of content).
  erewrite bind_Ok; [|reflexivity].
  erewrite bind_Ok; [|apply open_read_Some; cbn; by rewrite lookup_insert_ne].
  erewrite bind_Ok; [|apply for_write_if_kept; cbn; apply lookup_insert_eq].
  by rewrite append_nil_l, after_open_write, print_after.
Qed.

(** *** Selection by the retention set *)

Lemma retained_exact {A} (ids : gset string) (idf : A → string) (l : list A) :
  exact_selection ids idf l (retained ids idf l).
Proof.
  unfold exact_selection, retained. split_and!.
  - done.
  - apply sublist_filter.
  - intros i (r & -> & Hr%list_elem_of_filter)%list_elem_of_fmap. tauto.
  - intros i Hi (r & -> & Hr)%list_elem_of_fmap.
    apply list_elem_of_fmap. exists r. split; [done|].
    by apply list_elem_of_filter.
Qed.

(** *** Output paths *)

Lemma same_prefix_ne (prefix s1 s2 : string) :
  s1 ≠ s2 → prefix +:+ s1 ≠ prefix +:+ s2.
Proof. intros Hne H. by apply (inj _) in H. Qed.

Lemma isoforms_out_cases prefix content :
  prefix +:+ ".filtered." +:+ fafq_type_of content = prefix +:+ ".filtered.fasta"
  ∨ prefix +:+ ".filtered." +:+ fafq_type_of content = prefix +:+ ".filtered.fastq".
Proof. unfold fafq_type_of. destruct (Py.startswith _ _); [by right|by left]. Qed.

Lemma isoforms_out_in prefix content :
  prefix +:+ ".filtered." +:+ fafq_type_of content ∈ outputs prefix.
Proof.
  unfold outputs.
  destruct (isoforms_out_cases prefix content) as [->| ->]; by repeat constructor.
Qed.



(** *** Absent companion files *)

Lemma bind_ret_l {A B} (a : A) (f : A → M B) w : (mret a ≫= f) w = f a w.
Proof. reflexivity. Qed.

Lemma bind_ret_r (m : M unit) w : (m;; mret ()) w = m w.
Proof. unfold mbind, M_bind. by destruct (m w) as [[[]| |] ?]. Qed.

Lemma bind_ext {A B} (m : M A) (f g : A → M B) w :
  (∀ a w', f a w' = g a w') → (m ≫= f) w = (m ≫= g) w.
Proof. intros H. unfold mbind, M_bind. destruct (m w) as [[a| |] ?]; by rewrite ?H. Qed.

Lemma filter_files_as_blocks (args : Args) (ids : gset string) (w : World) :
  filter_files args ids w
  = (prefix ← path_join (dir args) (output args);
     run_blocks prefix args ids all_formats) w.
Proof.
  unfold filter_files, run_blocks. apply bind_ext. intros prefix w1. cbn.
  do 3 (apply bind_ext; intros [] ?). by rewrite bind_ret_r.
Qed.

Section Frame.

Context {A B : Type}.
Implicit Types P Q : string → Prop.

Lemma touches_mono P Q (m : M A) :
  (∀ q, P q → Q q) → touches_only P m → touches_only Q m.
Proof. intros HPQ Hm w q Hq. apply Hm. naive_solver. Qed.

Lemma touches_bind P (m : M A) (f : A → M B) :
  touches_only P m → (∀ a, touches_only P (f a)) → touches_only P (m ≫= f).
Proof.
  intros Hm Hf w q Hq. unfold mbind, M_bind.
  specialize (Hm w q Hq). destruct (m w) as [[a| |] w1]; cbn in *; [|done..].
  by rewrite Hf.
Qed.

Lemma touches_ret P (a : A) : touches_only P (mret a).
Proof. by intros w q Hq. Qed.

Lemma touches_raise P e : touches_only P (raise e : M A).
Proof. by intros w q Hq. Qed.

End Frame.

Lemma touches_for {A} (P : string → Prop) (l : list A) (body : A → M unit) :
  (∀ x, touches_only P (body x)) → touches_only P (for_ l body).
Proof.
  intros Hbody. induction l as [|x l IH]; cbn [for_].
  - by intros w q Hq.
  - apply touches_bind; [apply Hbody|done].
Qed.

Lemma touches_when_some {A} (P : string → Prop) (o : option A) (body : A → M unit) :
  (∀ x, touches_only P (body x)) → touches_only P (when_some o body).
Proof. intros Hbody. destruct o; cbn; [apply Hbody|]. by intros w q Hq. Qed.


Lemma touches_open_read P p : touches_only P (open_read p).
Proof. intros w q Hq. unfold open_read. by destruct (files w !! p). Qed.

Lemma touches_print_stdout P s : touches_only P (print_stdout s).
Proof. by intros w q Hq. Qed.

Lemma touches_open_write (P : string → Prop) p : P p → touches_only P (open_write p).
Proof. intros Hp w q Hq. cbn. apply lookup_insert_ne. by intros ->. Qed.

Lemma touches_write (P : string → Prop) p s : P p → touches_only P (write p s).
Proof. intros Hp w q Hq. cbn. apply lookup_insert_ne. by intros ->. Qed.

Lemma touches_write_if_kept (P : string → Prop) ids p i s :
  P p → touches_only P (write_if_kept ids p i s).
Proof.
  intros Hp. unfold write_if_kept, when.
  destruct (bool_decide _); [by apply touches_write|by intros w q Hq].
Qed.

Local Ltac touches :=
  repeat first
    [ apply touches_bind; [|intros ?]
    | apply touches_for; intros ?
    | apply touches_open_read
    | apply touches_print_stdout
    | apply touches_open_write
    | apply touches_write
    | apply touches_write_if_kept ].

(** A block writes nowhere but to the output paths of its format. *)
Lemma block_touches (f : Format) (prefix p : string) (ids : gset string) :
  touches_only (λ q, q ∈ format_outputs f prefix) (block f prefix p ids).
Proof.
  destruct f; cbn [block format_outputs].
  - unfold filter_isoforms. apply touches_bind; [apply touches_open_read|intros h].
    fold (fafq_type_of h).
    destruct (isoforms_out_cases prefix h) as [->| ->]; touches; by repeat constructor.
  - unfold filter_gtf. touches; by repeat constructor.
  - unfold filter_sam. touches; by repeat constructor.
  - unfold filter_faa. touches; by repeat constructor.
Qed.

(** The output paths of two different formats are different. *)
Lemma format_outputs_disjoint (f g : Format) (prefix q : string) :
  q ∈ format_outputs f prefix → q ∈ format_outputs g prefix → f = g.
Proof.
  destruct f, g; cbn; try done;
    rewrite ?elem_of_cons, ?elem_of_nil; intros Hf Hg;
    exfalso; destruct_or!; try done; subst q;
    by apply same_prefix_ne in Hg.
Qed.

(** The blocks of the formats [fs] write nowhere but to the output paths
    of those among them whose companion file is declared. *)
Lemma run_blocks_touches (prefix : string) (args : Args) (ids : gset string)
    (fs : list Format) :
  touches_only
    (λ q, ∃ g, g ∈ fs ∧ is_Some (companion g args) ∧ q ∈ format_outputs g prefix)
    (run_blocks prefix args ids fs).
Proof.
  unfold run_blocks. induction fs as [|g fs IH]; cbn [for_].
  - by intros w q Hq.
  - apply touches_bind.
    + destruct (companion g args) as [p|] eqn:Hg; cbn; [|by intros w q Hq].
      eapply touches_mono; [|apply block_touches].
      intros q Hq. exists g. rewrite Hg. split_and!; [by left|done|done].
    + intros []. eapply touches_mono; [|apply IH].
      intros q (g' & ? & ? & ?). exists g'. split_and!; [by right|done|done].
Qed.

Lemma other_formats (f : Format) :
  filter (λ g, g ≠ f) all_formats
  = match f with
    | Sequence => [Annotation; Alignment; Protein]
    | Annotation => [Sequence; Alignment; Protein]
    | Alignment => [Sequence; Annotation; Protein]
    | Protein => [Sequence; Annotation; Alignment]
    end.
Proof. by destruct f; vm_compute. Qed.

(** C9: when the argument of a companion format is absent, its guarded
    block returns normally without changing the state, the whole of
    [filter_files] behaves as the guarded blocks of the other three formats
    run alone, and no output path of the absent format is created or
    changed, however the run ends. *)
Theorem filter_files_skips_absent (f : Format) (args : Args)
    (ids : gset string) (w : World) :
  companion f args = None →
  (∀ prefix w1,
     when_some (companion f args) (λ p, block f prefix p ids) w1 = (Ok (), w1))
  ∧ filter_files args ids w
    = (prefix ← path_join (dir args) (output args);
       run_blocks prefix args ids (filter (λ g, g ≠ f) all_formats)) w
  ∧ (∀ d o q,
       dir args = Some d → output args = Some o →
       q ∈ format_outputs f (d +:+ "/" +:+ o) →
       files (filter_files args ids w).2 !! q = files w !! q).
Proof.
  intros Hf. split_and!.
  - intros prefix w1. by rewrite Hf.
  - unfold filter_files, run_blocks. apply bind_ext. intros prefix w1.
    rewrite other_formats.
    destruct f; cbn in Hf; rewrite Hf; cbn.
    + rewrite bind_ret_l. do 2 (apply bind_ext; intros [] ?). by rewrite bind_ret_r.
    + apply bind_ext; intros [] ?. rewrite bind_ret_l.
      apply bind_ext; intros [] ?. by rewrite bind_ret_r.
    + do 2 (apply bind_ext; intros [] ?). rewrite bind_ret_l. by rewrite bind_ret_r.
    + do 2 (apply bind_ext; intros [] ?). by rewrite !bind_ret_r.
  - intros d o q Hd Ho Hq. rewrite filter_files_as_blocks, Hd, Ho.
    change (path_join (Some d) (Some o)) with (mret (M:=M) (d +:+ "/" +:+ o)).
    rewrite bind_ret_l.
    apply (run_blocks_touches (d +:+ "/" +:+ o) args ids all_formats).
    intros (g & _ & Hg & Hq').
    rewrite (format_outputs_disjoint f g _ _ Hq Hq') in Hf.
    rewrite Hf in Hg. by destruct Hg.
Qed.

(** *** Reading the inclusion list *)

Lemma length_append (a b : string) :
  String.length (a +:+ b) = (String.length a + String.length b)%nat.
Proof. induction a as [|c a IH]; [done|]. rewrite append_cons. cbn. by rewrite IH. Qed.

Lemma no_space_cons c s :
  no_space (String c s) = true → Py.isspace c = false ∧ no_space s = true.
Proof. cbn. intros [H1 H2]%andb_prop. by apply negb_true_iff in H1. Qed.

Lemma not_space_not_nl c : Py.isspace c = false → Ascii.eqb c "010" = false.
Proof. intros H. destruct (Ascii.eqb_spec c "010") as [->|]; done. Qed.

Lemma readline_one (i rest : string) :
  no_space i = true → Py.readline (i +:+ Py.nl +:+ rest) = i +:+ Py.nl.
Proof.
  induction i as [|c i IH]; [done|].
  intros [Hc Hi]%no_space_cons. rewrite !append_cons. cbn [Py.readline].
  by rewrite (not_space_not_nl c Hc), IH.
Qed.

Lemma after_line_one (i rest : string) :
  no_space i = true → Py.after_line (i +:+ Py.nl +:+ rest) = rest.
Proof.
  induction i as [|c i IH]; [done|].
  intros [Hc Hi]%no_space_cons. rewrite !append_cons. cbn [Py.after_line].
  by rewrite (not_space_not_nl c Hc), IH.
Qed.

Lemma lines_fuel_one_per_line (l : list string) : ∀ n,
  Forall (λ i, no_space i = true) l →
  (length l ≤ n)%nat →
  Py.lines_fuel n (one_per_line l) = (λ i, i +:+ Py.nl) <$> l.
Proof.
  induction l as [|i l IH]; intros n Hl Hn.
  - by destruct n.
  - apply Forall_cons in Hl as [Hi Hl].
    destruct n as [|n]; [cbn in Hn; lia|].
    change (one_per_line (i :: l)) with ((i +:+ Py.nl) +:+ one_per_line l).
    rewrite append_assoc. cbn [Py.lines_fuel].
    rewrite readline_one, after_line_one by done.
    rewrite IH by (done || cbn in Hn; lia).
    by destruct i.
Qed.

Lemma length_one_per_line (l : list string) :
  (length l ≤ String.length (one_per_line l))%nat.
Proof.
  induction l as [|i l IH]; [done|].
  change (one_per_line (i :: l)) with ((i +:+ Py.nl) +:+ one_per_line l).
  rewrite !length_append. cbn. lia.
Qed.

Lemma rstrip_line (i : string) :
  no_space i = true → Py.rstrip (i +:+ Py.nl) = i.
Proof.
  induction i as [|c i IH]; [done|].
  intros [Hc Hi]%no_space_cons. rewrite append_cons. cbn [Py.rstrip].
  rewrite IH by done. destruct i; [by rewrite Hc|done].
Qed.

Lemma strip_line (i : string) :
  no_space i = true → Py.strip (i +:+ Py.nl) = i.
Proof.
  intros Hi. unfold Py.strip. destruct i as [|c i]; [done|].
  destruct (no_space_cons _ _ Hi) as [Hc _].
  rewrite append_cons. cbn [Py.lstrip]. rewrite Hc.
  rewrite <- append_cons. by apply rstrip_line.
Qed.

(** A file that lists identifiers without white space, one per line, is
    read back as exactly the set of those identifiers. *)
Lemma read_one_per_line (l : list string) :
  Forall (λ i, no_space i = true) l →
  read_inclusion_list (one_per_line l) = list_to_set l.
Proof.
  intros Hl. unfold read_inclusion_list, Py.lines.
  rewrite lines_fuel_one_per_line by (done || apply length_one_per_line).
  f_equal. induction Hl as [|i l Hi Hl IH]; [done|].
  rewrite !fmap_cons. by rewrite strip_line, IH.
Qed.

(** *** [run_ML] *)

Lemma add_file_option_ok (flag : string) (o : option string) (cmd : string) w :
  opt_exists w o →
  add_file_option flag o cmd w = (Ok (cmd +:+ opt_flag flag o), w).
Proof.
  intros Ho. destruct o as [p|]; cbn.
  - destruct (Ho p eq_refl) as [c Hc].
    unfold mbind, M_bind, os_path_isfile, os_path_exists.
    by rewrite bool_decide_eq_true_2.
  - by rewrite append_nil_r.
Qed.

Lemma when_missing_ok (o : option string) (body : string → M unit) w :
  opt_exists w o → when_missing o body w = (Ok (), w).
Proof.
  intros Ho. destruct o as [p|]; cbn; [|done].
  destruct (Ho p eq_refl) as [c Hc].
  unfold mbind, M_bind, os_path_exists. by rewrite bool_decide_eq_true_2.
Qed.

(** [run_ML] up to the point where it opens the inclusion list. *)
Lemma run_ML_open (args : Args) (m : MLArgs) (w : World) (d o : string) :
  dir args = Some d →
  output args = Some o →
  opt_exists w (TP m) → opt_exists w (TN m) → opt_exists w (remove_columns m) →
  run_ML args m w
  = (content ← open_read ((d +:+ "/" +:+ o) +:+ "_inclusion-list.txt");
     mret (read_inclusion_list content)) (after_Rscript args m w).
Proof.
  intros Hd Ho H1 H2 H3. unfold run_ML.
  erewrite bind_Ok; [|by apply add_file_option_ok].
  erewrite bind_Ok; [|by apply add_file_option_ok].
  erewrite bind_Ok; [|by apply add_file_option_ok].
  fold (ML_full_cmd args m).
  erewrite bind_Ok; [|reflexivity].
  erewrite bind_Ok; [|reflexivity].
  rewrite Hd, Ho. by erewrite bind_Ok; [|reflexivity].
Qed.

(** C8: once the subprocess has run, [run_ML] opens the inclusion list.
    When the file does not exist the call, and with it the ML branch of
    [main], ends with an uncaught [FileNotFoundError] on that path and
    nothing is filtered.  When it exists, [run_ML] returns the set of its
    stripped lines, which [main] passes unchanged to [filter_files]; for a
    file that lists identifiers without white space one per line, this is
    exactly the set of the listed identifiers. *)
Theorem run_ML_retention_set (args : Args) (m : MLArgs) (w : World) (d o : string) :
  dir args = Some d →
  output args = Some o →
  opt_exists w (TP m) → opt_exists w (TN m) → opt_exists w (remove_columns m) →
  percent_training_out_of_range (percent_training m) = false →
  let inclusion_list := (d +:+ "/" +:+ o) +:+ "_inclusion-list.txt" in
  let w1 := after_Rscript args m w in
  (files w1 !! inclusion_list = None →
     run_ML args m w = (Raise (FileNotFoundError inclusion_list), w1)
     ∧ main_ML args m w = (Raise (FileNotFoundError inclusion_list), w1))
  ∧ (∀ content, files w1 !! inclusion_list = Some content →
       run_ML args m w = (Ok (read_inclusion_list content), w1)
       ∧ main_ML args m w = filter_files args (read_inclusion_list content) w1)
  ∧ (∀ l, Forall (λ i, no_space i = true) l →
       read_inclusion_list (one_per_line l) = list_to_set l).
Proof.
  intros Hd Ho H1 H2 H3 Hpt inclusion_list w1.
  assert (main_ML args m w = (run_ML args m ≫= filter_files args) w) as Hmain.
  { unfold main_ML.
    do 3 (erewrite bind_Ok; [|by apply when_missing_ok]).
    rewrite Hpt. by erewrite bind_Ok; [|reflexivity]. }
  split_and!.
  - intros Hnone.
    assert (run_ML args m w = (Raise (FileNotFoundError inclusion_list), w1)) as Hrun.
    { rewrite (run_ML_open args m w d o) by done.
      by erewrite bind_Raise; [|by apply open_read_None]. }
    split; [done|]. rewrite Hmain. by erewrite bind_Raise.
  - intros content Hsome.
    assert (run_ML args m w = (Ok (read_inclusion_list content), w1)) as Hrun.
    { rewrite (run_ML_open args m w d o) by done.
      by erewrite bind_Ok; [|by apply open_read_Some]. }
    split; [done|]. rewrite Hmain. by erewrite bind_Ok.
  - apply read_one_per_line.
Qed.

(** *** The checks of [main] *)

Lemma when_missing_absent (p : string) (body : string → M unit) w :
  files w !! p = None → when_missing (Some p) body w = body p w.
Proof.
  intros Hp. cbn. unfold mbind, M_bind, os_path_exists. cbn.
  rewrite bool_decide_eq_false_2; [done|]. rewrite Hp. by intros [? ?].
Qed.

Lemma isfile_true (p : string) w :
  is_Some (files w !! p) → os_path_isfile p w = (Ok true, w).
Proof. intros Hp. unfold os_path_isfile, os_path_exists. by rewrite bool_decide_eq_true_2. Qed.

Lemma isfile_false (p : string) w :
  files w !! p = None → os_path_isfile p w = (Ok false, w).
Proof.
  intros Hp. unfold os_path_isfile, os_path_exists.
  rewrite bool_decide_eq_false_2; [done|]. rewrite Hp. by intros [? ?].
Qed.

(** With the classification table and every declared companion file in
    place, the common checks return normally whatever the intrapriming
    threshold is: out of range, it only adds a line to the standard
    error. *)
Lemma check_common_ok (args : Args) (w : World) :
  is_Some (files w !! sqanti_class args) →
  opt_exists w (isoforms args) → opt_exists w (gtf args) →
  opt_exists w (sam args) → opt_exists w (faa args) →
  check_common args w
  = (Ok (), if intrapriming_out_of_range (intrapriming args)
            then mkWorld (files w) (stdout w)
                         (stderr w ++ [intrapriming_message (intrapriming args)])
            else w).
Proof.
  intros Hc H1 H2 H3 H4. unfold check_common.
  erewrite bind_Ok; [|by apply isfile_true]. cbn [negb when].
  rewrite bind_ret_l.
  do 4 (erewrite bind_Ok; [|by apply when_missing_ok]).
  by destruct (intrapriming_out_of_range _).
Qed.

(** The defaults of the output directory and prefix never fail and touch
    nothing but the two arguments and the standard error. *)
Lemma define_outputs_spec (args : Args) (w : World) :
  ∃ args' w',
    define_outputs args w = (Ok args', w')
    ∧ files w' = files w ∧ stdout w' = stdout w
    ∧ subcommand args' = subcommand args
    ∧ intrapriming args' = intrapriming args
    ∧ is_Some (dir args') ∧ is_Some (output args')
    ∧ (∀ f, companion f args' = companion f args)
    ∧ (∃ notices, stderr w' = stderr w ++ notices).
Proof.
  unfold define_outputs.
  destruct (dir args) as [d|] eqn:Hd.
  - rewrite bind_ret_l. destruct (output args) as [o|] eqn:Ho.
    + exists args, w. rewrite Hd, Ho.
      split_and!; try done. exists []. by rewrite app_nil_r.
    + eexists _, _. split; [reflexivity|]. cbn. rewrite Hd.
      split_and!; first [done | by intros [] | by eexists].
  - erewrite bind_Ok; [|reflexivity]. cbn [output set_dir].
    destruct (output args) as [o|] eqn:Ho.
    + eexists _, _. split; [reflexivity|]. cbn.
      split_and!; first [done | by intros [] | by eexists].
    + eexists _, _. split; [reflexivity|]. cbn.
      split_and!; first [done | by intros [] | rewrite <- app_assoc; by eexists].
Qed.

Lemma touches_print_stderr P s : touches_only P (print_stderr s).
Proof. by intros w q Hq. Qed.

Lemma touches_sys_exit {A} P c : touches_only P (sys_exit c : M A).
Proof. by intros w q Hq. Qed.

Lemma touches_exists P p : touches_only P (os_path_exists p).
Proof. by intros w q Hq. Qed.

Lemma touches_when P (c : bool) (body : M unit) :
  touches_only P body → touches_only P (when c body).
Proof. intros Hb. destruct c; [done|]. by intros w q Hq. Qed.

Lemma check_common_touches (args : Args) :
  touches_only (λ _, False) (check_common args).
Proof.
  unfold check_common, when_missing, getattr_absent, os_path_isfile.
  repeat first
    [ apply touches_bind; [|intros ?]
    | apply touches_when_some; intros ?
    | apply touches_when
    | apply touches_exists
    | apply touches_print_stderr
    | apply touches_sys_exit
    | apply touches_raise ].
Qed.

(** The prelude of [main] writes no file and leaves the sub-command as
    it is. *)
Lemma main_prelude_inv (args args' : Args) (w w' : World) :
  main_prelude args w = (Ok args', w') →
  files w' = files w ∧ subcommand args' = subcommand args.
Proof.
  unfold main_prelude.
  set (a := set_sqanti_class _ args).
  assert (files (check_common a w).2 = files w) as Hcc.
  { apply map_eq. intros q. apply check_common_touches. tauto. }
  unfold mbind at 1, M_bind at 1.
  destruct (check_common a w) as [[[]| |] w1]; [|done..]. cbn in Hcc.
  destruct (define_outputs_spec a w1) as (a' & w2 & E & Hf & _ & Hs & _).
  erewrite bind_Ok; [|exact E]. cbn.
  intros [= <- <-]. cbn. split; [congruence|done].
Qed.

(** C10: a run of the rules strategy that gets through the checks before
    the dispatch and whose [runAlength] passes the range check arrives at
    the call of [run_rules], a name bound nowhere: [main] ends with an
    uncaught [NameError] in the state the prelude left, in which no file
    has been written; no retention set exists and [filter_files] is never
    entered. *)
Theorem rules_strategy_name_error (args args' : Args) (r : RulesArgs) (w w' : World) :
  subcommand args = rules r →
  main_prelude args w = (Ok args', w') →
  runAlength_out_of_range (runAlength r) = false →
  main_rules args' r w' = (Raise (NameError "run_rules"), w')
  ∧ main args w = (Raise (NameError "run_rules"), w')
  ∧ files w' = files w.
Proof.
  intros Hsub Hpre Hrange.
  destruct (main_prelude_inv _ _ _ _ Hpre) as [Hfiles Hsub'].
  assert (main_rules args' r w' = (Raise (NameError "run_rules"), w')) as Hrules.
  { unfold main_rules. rewrite Hrange. by erewrite bind_Ok; [|reflexivity]. }
  split_and!; [done| |done].
  unfold main. erewrite bind_Ok; [|exact Hpre]. by rewrite Hsub', Hsub.
Qed.

(** With the classification table and every declared companion file in
    place, the prelude gets through to the dispatch; the standard error
    has received the intrapriming message, if the threshold is out of
    range, and the notices about the defaults. *)
Lemma main_prelude_ok (args : Args) (w : World) :
  is_Some (files w !! abspath (sqanti_class args)) →
  opt_exists w (isoforms args) → opt_exists w (gtf args) →
  opt_exists w (sam args) → opt_exists w (faa args) →
  ∃ args' w' notices,
    main_prelude args w = (Ok args', w')
    ∧ stderr w'
      = stderr w
        ++ (if intrapriming_out_of_range (intrapriming args)
            then [intrapriming_message (intrapriming args)] else [])
        ++ notices.
Proof.
  intros Hc H1 H2 H3 H4.
  set (a := set_sqanti_class (abspath (sqanti_class args)) args).
  pose proof (check_common_ok a w Hc H1 H2 H3 H4) as Hcc.
  change (intrapriming a) with (intrapriming args) in Hcc.
  match type of Hcc with _ = (_, ?w1) =>
    destruct (define_outputs_spec a w1)
      as (a' & w2 & E & _ & _ & _ & _ & _ & _ & _ & notices & Herr)
  end.
  exists a', (mkWorld (files w2) (stdout w2 ++ [running_message]) (stderr w2)), notices.
  split.
  - unfold main_prelude. fold a.
    erewrite bind_Ok; [|exact Hcc]. erewrite bind_Ok; [|exact E].
    by erewrite bind_Ok; [|reflexivity].
  - cbn. rewrite Herr.
    destruct (intrapriming_out_of_range _); cbn; [by rewrite <- app_assoc|done].
Qed.

(** When the prelude gets through, [main] is the branch of the
    sub-command run on what the prelude left. *)
Lemma main_after_prelude (args args' : Args) (w w' : World) :
  main_prelude args w = (Ok args', w') →
  main args w
  = match subcommand args with
    | ML m => main_ML args' m w'
    | rules r => main_rules args' r w'
    end.
Proof.
  intros Hpre. destruct (main_prelude_inv _ _ _ _ Hpre) as [_ Hsub].
  unfold main. erewrite bind_Ok; [|exact Hpre]. rewrite Hsub.
  by destruct (subcommand args).
Qed.

Lemma define_outputs_touches (args : Args) :
  touches_only (λ _, False) (define_outputs args).
Proof.
  unfold define_outputs. apply touches_bind.
  - destruct (dir args); [apply touches_ret|].
    apply touches_bind; [apply touches_print_stderr|intros ?; apply touches_ret].
  - intros a. destruct (output a); [apply touches_ret|].
    apply touches_bind; [apply touches_print_stderr|intros ?; apply touches_ret].
Qed.

Lemma main_prelude_touches (args : Args) :
  touches_only (λ _, False) (main_prelude args).
Proof.
  unfold main_prelude.
  apply touches_bind; [apply check_common_touches|intros ?].
  apply touches_bind; [apply define_outputs_touches|intros ?].
  apply touches_bind; [apply touches_print_stdout|intros ?; apply touches_ret].
Qed.

Lemma main_rules_touches (args : Args) (r : RulesArgs) :
  touches_only (λ _, False) (main_rules args r).
Proof.
  unfold main_rules. apply touches_bind.
  - apply touches_when.
    apply touches_bind; [apply touches_print_stderr|intros ?; apply touches_sys_exit].
  - by intros [] w q Hq.
Qed.

(** Whatever its arguments and wherever it stops, a run of the rules
    strategy leaves every file as it was. *)
Lemma rules_strategy_writes_nothing (args : Args) (r : RulesArgs) (w : World) :
  subcommand args = rules r → files (main args w).2 = files w.
Proof.
  intros Hsub. apply map_eq. intros q.
  pose proof (main_prelude_touches args w q) as Hpre.
  destruct (main_prelude args w) as [[args'| |] w'] eqn:E; cbn in Hpre.
  - rewrite (main_after_prelude _ _ _ _ E), Hsub.
    rewrite (main_rules_touches args' r w' q) by tauto. apply Hpre. tauto.
  - unfold main. erewrite bind_Exit; [|exact E]. apply Hpre. tauto.
  - unfold main. erewrite bind_Raise; [|exact E]. apply Hpre. tauto.
Qed.

(** C4: the range test accepts 0.25 and 1.0 and flags the doubles nearest
    to 0.24 and to 1.01.  A flagged threshold is not rejected, though: with
    the classification table and the declared companion files in place,
    the prelude of [main] prints the message that ends in "Abort!" and
    returns normally, and [main] goes on with the branch of the
    sub-command. *)
Theorem intrapriming_out_of_range_not_fatal (args : Args) (w : World) :
  is_Some (files w !! abspath (sqanti_class args)) →
  opt_exists w (isoforms args) → opt_exists w (gtf args) →
  opt_exists w (sam args) → opt_exists w (faa args) →
  intrapriming_out_of_range (intrapriming args) = true →
  (intrapriming_out_of_range (Py.Finite (1 # 4)) = false
   ∧ intrapriming_out_of_range (Py.Finite 1) = false
   ∧ intrapriming_out_of_range (Py.Finite (1080863910568919 # 4503599627370496)) = true
   ∧ intrapriming_out_of_range (Py.Finite (4548635623644201 # 4503599627370496)) = true)
  ∧ ∃ args' w',
      main_prelude args w = (Ok args', w')
      ∧ intrapriming_message (intrapriming args) ∈ stderr w'
      ∧ main args w
        = match subcommand args with
          | ML m => main_ML args' m w'
          | rules r => main_rules args' r w'
          end.
Proof.
  intros Hc H1 H2 H3 H4 Hout. split; [by vm_compute|].
  destruct (main_prelude_ok args w Hc H1 H2 H3 H4)
    as (args' & w' & notices & Hpre & Herr).
  exists args', w'. split_and!; [done| |by apply main_after_prelude].
  rewrite Herr, Hout, !elem_of_app, list_elem_of_singleton. tauto.
Qed.

(** C5: with the classification table in place and a declared companion
    file missing, [main] stops before any filtering, but only the SAM and
    FAA checks report the path and exit with status -1.  The FASTA/FASTQ
    and GTF checks read an attribute the namespace does not have while
    they build the message, so the run ends with an uncaught
    [AttributeError] and nothing is printed. *)
Theorem missing_companion_file (args : Args) (w : World) (p : string) :
  is_Some (files w !! abspath (sqanti_class args)) →
  files w !! p = None →
  (isoforms args = Some p →
     main args w = (Raise (AttributeError "isoform"), w))
  ∧ (opt_exists w (isoforms args) → gtf args = Some p →
     main args w = (Raise (AttributeError "gtf_file"), w))
  ∧ (opt_exists w (isoforms args) → opt_exists w (gtf args) → sam args = Some p →
     main args w
     = (Exit (-1), mkWorld (files w) (stdout w) (stderr w ++ [doesnt_exist p])))
  ∧ (opt_exists w (isoforms args) → opt_exists w (gtf args) →
     opt_exists w (sam args) → faa args = Some p →
     main args w
     = (Exit (-1), mkWorld (files w) (stdout w) (stderr w ++ [doesnt_exist p]))).
Proof.
  intros Hc Hp.
  set (a := set_sqanti_class (abspath (sqanti_class args)) args).
  assert (∀ (r : result unit) w', check_common a w = (r, w') →
            (∀ x, r ≠ Ok x) → ∃ r' : result unit, main args w = (r', w')
              ∧ match r, r' with
                | Exit c, Exit c' => c = c'
                | Raise e, Raise e' => e = e'
                | _, _ => False
                end) as Hstop.
  { intros r w' Hr Hno. unfold main, main_prelude. fold a.
    destruct r as [x|c|e]; [by destruct (Hno x)| |].
    - exists (Exit c). split; [|done].
      erewrite bind_Exit; [done|]. by erewrite bind_Exit.
    - exists (Raise e). split; [|done].
      erewrite bind_Raise; [done|]. by erewrite bind_Raise. }
  assert (∀ c w', check_common a w = (Exit c, w') → main args w = (Exit c, w')) as HE.
  { intros c w' Hr. destruct (Hstop _ _ Hr) as ([ | |] & -> & Hm); by subst. }
  assert (∀ e w', check_common a w = (Raise e, w') → main args w = (Raise e, w')) as HR.
  { intros e w' Hr. destruct (Hstop _ _ Hr) as ([ | |] & -> & Hm); by subst. }
  clear Hstop. split_and!.
  - intros Hi. apply HR. unfold check_common.
    erewrite bind_Ok; [|by apply isfile_true]. cbn [negb when]. rewrite bind_ret_l.
    change (isoforms a) with (isoforms args). rewrite Hi.
    erewrite bind_Raise; [done|]. by rewrite when_missing_absent.
  - intros H1 Hg. apply HR. unfold check_common.
    erewrite bind_Ok; [|by apply isfile_true]. cbn [negb when]. rewrite bind_ret_l.
    erewrite bind_Ok; [|by apply when_missing_ok].
    change (gtf a) with (gtf args). rewrite Hg.
    erewrite bind_Raise; [done|]. by rewrite when_missing_absent.
  - intros H1 H2 Hs. apply HE. unfold check_common.
    erewrite bind_Ok; [|by apply isfile_true]. cbn [negb when]. rewrite bind_ret_l.
    do 2 (erewrite bind_Ok; [|by apply when_missing_ok]).
    change (sam a) with (sam args). rewrite Hs.
    erewrite bind_Exit; [done|]. by rewrite when_missing_absent.
  - intros H1 H2 H3 Hf. apply HE. unfold check_common.
    erewrite bind_Ok; [|by apply isfile_true]. cbn [negb when]. rewrite bind_ret_l.
    do 3 (erewrite bind_Ok; [|by apply when_missing_ok]).
    change (faa a) with (faa args). rewrite Hf.
    erewrite bind_Exit; [done|]. by rewrite when_missing_absent.
Qed.

(** *** Further properties of the checks *)

(** The container type depends on the first character of the file only:
    FASTQ when it is ['@'], FASTA otherwise, also for an empty file and
    for a file that starts with an empty line. *)
Theorem fafq_type_by_first_character (content : string) :
  (fafq_type_of content = "fastq" ↔ ∃ rest, content = String "@" rest)
  ∧ (fafq_type_of content = "fasta" ↔ ¬ ∃ rest, content = String "@" rest).
Proof.
  unfold fafq_type_of. rewrite startswith_readline. unfold Py.startswith.
  destruct content as [|c rest].
  - cbn. split; split; try done; [by intros [? ?]|by intros _ [? ?]].
  - rewrite prefix_one. destruct (ascii_dec "@" c) as [<-|Hc].
    + split; split; try done; [by eexists|]. intros H. destruct H. by eexists.
    + split; split; try done; [by intros [? [= ?]]|by intros _ [? [= ?]]].
Qed.

Lemma float_lt_finite_false (a b : Q) :
  Py.float_lt (Py.Finite a) (Py.Finite b) = false ↔ (b <= a)%Q.
Proof. cbn. rewrite negb_false_iff. apply Qle_bool_iff. Qed.

(** The three range tests of [main], read as intervals.  A threshold or
    a training proportion passes when it is a number of the closed
    interval, and also when it is NaN, which compares false with both
    bounds; the infinities are out of range.  A run length passes when it
    lies between 4 and 20. *)
Theorem range_tests_as_intervals :
  (∀ x, intrapriming_out_of_range x = false
        ↔ x = Py.NaN ∨ ∃ q, x = Py.Finite q ∧ (1 # 4 <= q)%Q ∧ (q <= 1)%Q)
  ∧ (∀ x, percent_training_out_of_range x = false
          ↔ x = Py.NaN ∨ ∃ q, x = Py.Finite q ∧ (0 <= q)%Q ∧ (q <= 1)%Q)
  ∧ (∀ n, runAlength_out_of_range n = false ↔ 4 ≤ n ≤ 20).
Proof.
  split_and!.
  - intros x. unfold intrapriming_out_of_range, Py.float_gt.
    rewrite orb_false_iff. destruct x as [q| | |].
    + rewrite !float_lt_finite_false. split.
      * intros [? ?]. right. by exists q.
      * intros [[=]|(q' & [= <-] & ? & ?)]. done.
    + cbn. split; [by intros [_ [=]]|]. by intros [[=]|(q' & [=] & _)].
    + cbn. split; [by intros [[=] _]|]. by intros [[=]|(q' & [=] & _)].
    + cbn. split; [by left|done].
  - intros x. unfold percent_training_out_of_range, Py.float_gt.
    rewrite orb_false_iff. destruct x as [q| | |].
    + rewrite !float_lt_finite_false. split.
      * intros [? ?]. right. by exists q.
      * intros [[=]|(q' & [= <-] & ? & ?)]. done.
    + cbn. split; [by intros [_ [=]]|]. by intros [[=]|(q' & [=] & _)].
    + cbn. split; [by intros [[=] _]|]. by intros [[=]|(q' & [=] & _)].
    + cbn. split; [by left|done].
  - intros n. unfold runAlength_out_of_range.
    rewrite orb_false_iff, !bool_decide_eq_false. lia.
Qed.

(** When the classification table does not exist, [main] prints the
    message with the absolute path to the standard error and exits with
    status -1; nothing else is checked, printed or written. *)
Theorem missing_classification_table (args : Args) (w : World) :
  files w !! abspath (sqanti_class args) = None →
  main args w
  = (Exit (-1),
     mkWorld (files w) (stdout w)
             (stderr w ++ [doesnt_exist (abspath (sqanti_class args))])).
Proof.
  intros Hc. unfold main, main_prelude.
  erewrite bind_Exit; [done|]. erewrite bind_Exit; [done|].
  unfold check_common. erewrite bind_Ok; [|by apply isfile_false].
  cbn [negb sqanti_class set_sqanti_class]. unfold when.
  by erewrite bind_Exit; [|reflexivity].
Qed.

(** A run length below 4 or above 20 ends the rules branch with the
    message on the standard error and status -1, before [run_rules] is
    looked up. *)
Theorem runAlength_out_of_range_exits (args : Args) (r : RulesArgs) (w : World) :
  runAlength r < 4 ∨ 20 < runAlength r →
  main_rules args r w
  = (Exit (-1),
     mkWorld (files w) (stdout w)
             (stderr w ++ ["ERROR: --runAlength must be between 4-20, instead given "
                           +:+ pretty (runAlength r) +:+ "! Abort!"])).
Proof.
  intros Hr. unfold main_rules, runAlength_out_of_range.
  assert (bool_decide (runAlength r < 4) || bool_decide (runAlength r > 20) = true) as ->.
  { apply orb_true_iff. rewrite !bool_decide_eq_true. lia. }
  unfold when. by erewrite bind_Exit; [|reflexivity].
Qed.

Lemma main_rules_not_Ok (args : Args) (r : RulesArgs) (w : World) :
  ∀ x w', main_rules args r w ≠ (Ok x, w').
Proof.
  intros x w'. unfold main_rules.
  destruct (runAlength_out_of_range (runAlength r)); unfold when.
  - by erewrite bind_Exit; [|reflexivity].
  - by erewrite bind_Ok; [|reflexivity].
Qed.

(** A run of the rules strategy never ends normally, whatever the
    arguments and the files: it exits on a failed check or ends with an
    uncaught exception. *)
Theorem rules_strategy_never_ends_normally (args : Args) (r : RulesArgs) (w : World) :
  subcommand args = rules r →
  ∀ x w', main args w ≠ (Ok x, w').
Proof.
  intros Hsub x w'.
  destruct (main_prelude args w) as [[args'| |] w1] eqn:E.
  - rewrite (main_after_prelude _ _ _ _ E), Hsub. apply main_rules_not_Ok.
  - unfold main. by erewrite bind_Exit.
  - unfold main. by erewrite bind_Raise.
Qed.

(** When a declared list of true positives, of true negatives or of
    columns to remove does not exist, the ML branch prints the message
    with its path and exits with status -1.  Nothing else has changed: the
    command line was not printed and the subprocess was not started.
    [run_ML] called on its own does the same. *)
Theorem missing_training_file (args : Args) (m : MLArgs) (w : World) (p : string) :
  files w !! p = None →
  let w' := mkWorld (files w) (stdout w) (stderr w ++ [doesnt_exist p]) in
  (TP m = Some p →
     main_ML args m w = (Exit (-1), w') ∧ run_ML args m w = (Exit (-1), w'))
  ∧ (opt_exists w (TP m) → TN m = Some p →
     main_ML args m w = (Exit (-1), w') ∧ run_ML args m w = (Exit (-1), w'))
  ∧ (opt_exists w (TP m) → opt_exists w (TN m) → remove_columns m = Some p →
     main_ML args m w = (Exit (-1), w') ∧ run_ML args m w = (Exit (-1), w')).
Proof.
  intros Hp w'.
  assert (∀ cmd flag, add_file_option flag (Some p) cmd w = (Exit (-1), w')) as Hadd.
  { intros cmd flag. cbn. erewrite bind_Ok; [|by apply isfile_false].
    reflexivity. }
  assert (when_missing (Some p) (λ p, print_stderr (doesnt_exist p);; sys_exit (-1)) w
          = (Exit (-1), w')) as Hwhen.
  { by rewrite when_missing_absent. }
  split_and!.
  - intros Ht. unfold main_ML, run_ML. rewrite Ht. split.
    + by erewrite bind_Exit.
    + by erewrite bind_Exit; [|apply Hadd].
  - intros H1 Ht. unfold main_ML, run_ML. rewrite Ht. split.
    + erewrite bind_Ok; [|by apply when_missing_ok]. by erewrite bind_Exit.
    + erewrite bind_Ok; [|by apply add_file_option_ok].
      by erewrite bind_Exit; [|apply Hadd].
  - intros H1 H2 Ht. unfold main_ML, run_ML. rewrite Ht. split.
    + do 2 (erewrite bind_Ok; [|by apply when_missing_ok]). by erewrite bind_Exit.
    + do 2 (erewrite bind_Ok; [|by apply add_file_option_ok]).
      by erewrite bind_Exit; [|apply Hadd].
Qed.

(** A training proportion below 0 or above 1 ends the ML branch with
    status -1 before the subprocess is started.  The message is built
    from [args.intrapriming]: it shows the intrapriming threshold, not the
    rejected proportion. *)
Theorem percent_training_out_of_range_exits (args : Args) (m : MLArgs) (w : World) :
  opt_exists w (TP m) → opt_exists w (TN m) → opt_exists w (remove_columns m) →
  percent_training_out_of_range (percent_training m) = true →
  main_ML args m w
  = (Exit (-1),
     mkWorld (files w) (stdout w)
             (stderr w ++ ["ERROR: --percent_training must be between 0-1, instead given "
                           +:+ str_float (intrapriming args) +:+ "! Abort!"])).
Proof.
  intros H1 H2 H3 Hpt. unfold main_ML.
  do 3 (erewrite bind_Ok; [|by apply when_missing_ok]).
  rewrite Hpt. unfold when. by erewrite bind_Exit; [|reflexivity].
Qed.

(** *** The state [filter_files] leaves behind *)

Lemma block_ok (f : Format) (prefix p : string) (ids : gset string) (w : World)
    (c : string) :
  files w !! p = Some c →
  p ≠ block_out f prefix c →
  block f prefix p ids w
  = (Ok (), after_block (block_out f prefix c) (block_body f ids c) w).
Proof.
  intros Hc Hne. destruct f; cbn.
  - by apply filter_isoforms_ok.
  - by apply filter_gtf_ok.
  - by apply filter_sam_ok.
  - by apply filter_faa_ok.
Qed.

Lemma block_out_in (f : Format) (prefix c : string) :
  block_out f prefix c ∈ outputs prefix.
Proof. destruct f; [apply isoforms_out_in|by repeat constructor..]. Qed.

Lemma written_path_in (prefix : string) (args : Args) (w : World) (f : Format) (q : string) :
  written_path prefix args w f = Some q → q ∈ outputs prefix.
Proof.
  unfold written_path. destruct (companion f args); [|done].
  destruct (files w !! _); [|done]. intros [= <-]. apply block_out_in.
Qed.

Lemma omap_cons_case {A B} (g : A → option B) (x : A) (l : list A) :
  omap g (x :: l) = match g x with Some y => y :: omap g l | None => omap g l end.
Proof. reflexivity. Qed.

Section FinalState.

Variables (prefix : string) (args : Args) (ids : gset string) (w : World).
Hypothesis Hreadable : ∀ f, readable w prefix (companion f args).

Let step := after_format prefix args ids w.
Let paths := λ fs : list Format, omap (written_path prefix args w) fs.

(** The guarded blocks of [fs], run in a state whose companion files are
    those of [w], leave the state computed by [after_format]. *)
Lemma run_blocks_final (fs : list Format) : ∀ acc,
  (∀ q, q ∉ outputs prefix → files acc !! q = files w !! q) →
  run_blocks prefix args ids fs acc = (Ok (), foldl step acc fs).
Proof.
  unfold run_blocks.
  induction fs as [|f fs IH]; intros acc Hacc; [done|].
  cbn [for_ foldl]. unfold step at 2, after_format.
  destruct (companion f args) as [p|] eqn:Hp.
  - destruct (Hreadable f p Hp) as [[c Hc] Hout]. rewrite Hc.
    assert (p ≠ block_out f prefix c) as Hne.
    { intros ->. apply Hout, block_out_in. }
    erewrite bind_Ok; [|apply block_ok; [by rewrite Hacc|done]].
    apply IH. intros q Hq. cbn. rewrite lookup_insert_ne; [by apply Hacc|].
    intros <-. apply Hq, block_out_in.
  - cbn [when_some]. rewrite bind_ret_l. by apply IH.
Qed.

Lemma foldl_step_stderr (fs : list Format) : ∀ acc,
  stderr (foldl step acc fs) = stderr acc.
Proof.
  induction fs as [|f fs IH]; intros acc; [done|].
  cbn [foldl]. rewrite IH. unfold step, after_format.
  destruct (companion f args) as [p|]; [|done]. by destruct (files w !! p).
Qed.

Lemma foldl_step_stdout (fs : list Format) : ∀ acc,
  stdout (foldl step acc fs) = stdout acc ++ (output_written <$> paths fs).
Proof.
  induction fs as [|f fs IH]; intros acc.
  - cbn. by rewrite app_nil_r.
  - cbn [foldl]. rewrite IH. unfold paths. rewrite omap_cons_case.
    unfold step, after_format, written_path.
    destruct (companion f args) as [p|]; [|done].
    destruct (files w !! p); [|done]. cbn. by rewrite <- app_assoc.
Qed.

Lemma foldl_step_other (fs : list Format) (q : string) : ∀ acc,
  q ∉ paths fs → files (foldl step acc fs) !! q = files acc !! q.
Proof.
  induction fs as [|f fs IH]; intros acc Hq; [done|].
  cbn [foldl]. unfold paths in *. rewrite omap_cons_case in Hq.
  unfold step at 2, after_format. unfold written_path in Hq at 1.
  destruct (companion f args) as [p|]; [|by apply IH].
  destruct (files w !! p) as [c|]; [|by apply IH].
  apply not_elem_of_cons in Hq as [Hne Hq].
  rewrite IH by done. cbn. by rewrite lookup_insert_ne.
Qed.

(** The files at the end depend on the files at the start only outside
    the paths written. *)
Lemma foldl_step_agree (fs : list Format) : ∀ a b,
  (∀ q, q ∉ paths fs → files a !! q = files b !! q) →
  files (foldl step a fs) = files (foldl step b fs).
Proof.
  induction fs as [|f fs IH]; intros a b Hab.
  - apply map_eq. intros q. apply Hab. cbn. apply not_elem_of_nil.
  - cbn [foldl]. apply IH. intros q Hq.
    unfold paths in Hab. setoid_rewrite omap_cons_case in Hab.
    unfold step, after_format. unfold written_path in Hab at 1.
    destruct (companion f args) as [p|]; [|by apply Hab].
    destruct (files w !! p) as [c|]; [|by apply Hab].
    cbn. destruct (decide (block_out f prefix c = q)) as [<-|Hne].
    + by rewrite !lookup_insert_eq.
    + rewrite !lookup_insert_ne by done. apply Hab.
      apply not_elem_of_cons. split; [done|exact Hq].
Qed.

End FinalState.

Lemma filter_files_final (args : Args) (ids : gset string) (w : World) (d o : string) :
  dir args = Some d →
  output args = Some o →
  (∀ f, readable w (d +:+ "/" +:+ o) (companion f args)) →
  filter_files args ids w
  = (Ok (), foldl (after_format (d +:+ "/" +:+ o) args ids w) w all_formats).
Proof.
  intros Hd Ho Hr. rewrite filter_files_as_blocks, Hd, Ho.
  change (path_join (Some d) (Some o)) with (mret (M:=M) (d +:+ "/" +:+ o)).
  rewrite bind_ret_l. by apply run_blocks_final.
Qed.



(** *** What [filter_files] never does *)

Lemma format_outputs_in (g : Format) (prefix q : string) :
  q ∈ format_outputs g prefix → q ∈ outputs prefix.
Proof.
  unfold outputs. destruct g; cbn; rewrite ?elem_of_cons, ?elem_of_nil; intros H;
    destruct_or!; try done; subst q; by repeat constructor.
Qed.


Lemma only_adds_refl (w : World) : only_adds w w.
Proof. split_and!; [done| |done]. exists []. by rewrite app_nil_r. Qed.

Lemma only_adds_trans (w1 w2 w3 : World) :
  only_adds w1 w2 → only_adds w2 w3 → only_adds w1 w3.
Proof.
  intros (E1 & [l1 O1] & F1) (E2 & [l2 O2] & F2). split_and!.
  - congruence.
  - exists (l1 ++ l2). by rewrite O2, O1, app_assoc.
  - auto.
Qed.

Lemma preserves_bind {A B} (m : M A) (f : A → M B) :
  preserves only_adds m → (∀ a, preserves only_adds (f a)) →
  preserves only_adds (m ≫= f).
Proof.
  intros Hm Hf w. specialize (Hm w). unfold mbind, M_bind.
  destruct (m w) as [[a| |] w1]; cbn in *; [|done..].
  eapply only_adds_trans; [exact Hm|apply Hf].
Qed.

Lemma preserves_unchanged {A} (m : M A) :
  (∀ w, (m w).2 = w) → preserves only_adds m.
Proof. intros Hm w. rewrite Hm. apply only_adds_refl. Qed.

Lemma preserves_for {A} (l : list A) (body : A → M unit) :
  (∀ x, preserves only_adds (body x)) → preserves only_adds (for_ l body).
Proof.
  intros Hbody. induction l as [|x l IH]; cbn [for_].
  - by apply preserves_unchanged.
  - by apply preserves_bind.
Qed.

Lemma preserves_when_some {A} (o : option A) (body : A → M unit) :
  (∀ x, preserves only_adds (body x)) → preserves only_adds (when_some o body).
Proof. intros Hbody. destruct o; cbn; [done|]. by apply preserves_unchanged. Qed.

Lemma preserves_open_read (p : string) : preserves only_adds (open_read p).
Proof.
  apply preserves_unchanged. intros w. unfold open_read. by destruct (files w !! p).
Qed.

Lemma preserves_insert (p : string) (g : World → string) :
  preserves only_adds (λ w, (Ok (), set_files (insert p (g w)) w)).
Proof.
  intros w. split_and!; cbn; [done| |].
  - exists []. by rewrite app_nil_r.
  - intros q Hq. destruct (decide (p = q)) as [->|Hne].
    + by rewrite lookup_insert_eq.
    + by rewrite lookup_insert_ne.
Qed.

Lemma preserves_print_stdout (s : string) : preserves only_adds (print_stdout s).
Proof. intros w. split_and!; cbn; [done|by eexists|done]. Qed.

Lemma preserves_write_if_kept (ids : gset string) (p i s : string) :
  preserves only_adds (write_if_kept ids p i s).
Proof.
  unfold write_if_kept, when. destruct (bool_decide _).
  - apply (preserves_insert p (λ w, default EmptyString (files w !! p) +:+ s)).
  - by apply preserves_unchanged.
Qed.

Local Ltac preserving :=
  repeat first
    [ apply preserves_bind; [|intros ?]
    | apply preserves_for; intros ?
    | apply preserves_when_some; intros ?
    | apply preserves_open_read
    | apply preserves_print_stdout
    | apply preserves_write_if_kept
    | apply (preserves_insert _ (λ _, EmptyString))
    | match goal with
      | |- preserves only_adds (write ?p ?s) =>
          apply (preserves_insert p (λ w, default EmptyString (files w !! p) +:+ s))
      end ].

(** However [filter_files] ends, it has written nothing to the standard
    error, it has only added lines to the standard output, and every
    file that existed before still exists: the function creates and
    overwrites files but never removes one. *)
Theorem filter_files_only_adds (args : Args) (ids : gset string) (w : World) :
  stderr (filter_files args ids w).2 = stderr w
  ∧ (∃ l, stdout (filter_files args ids w).2 = stdout w ++ l)
  ∧ (∀ q, is_Some (files w !! q) → is_Some (files (filter_files args ids w).2 !! q)).
Proof.
  assert (preserves only_adds (filter_files args ids)) as H; [|apply H].
  unfold filter_files. apply preserves_bind.
  - apply preserves_unchanged. intros w'. unfold path_join.
    by destruct (dir args), (output args).
  - intros prefix.
    unfold filter_isoforms, filter_gtf, filter_sam, filter_faa, open_write.
    preserving.
Qed.

(** *** Inputs that are missing or are the output *)


Lemma read_after_truncate (out : string) (w : World) :
  open_read out (set_files (insert out EmptyString) w)
  = (Ok EmptyString, set_files (insert out EmptyString) w).
Proof. apply open_read_Some. cbn. apply lookup_insert_eq. Qed.

(** When the input path of a block is its own output path, the file is
    truncated before it is read: the block ends normally and the file
    holds what the block writes for an empty input, whatever it held
    before (for the GTF, SAM and FAA blocks, also when it did not
    exist).  The FASTA/FASTQ block has detected the container type from
    the old content by then. *)
Theorem input_is_output_path (prefix : string) (ids : gset string) (w : World) :
  filter_gtf prefix (prefix +:+ ".filtered.gtf") ids w
  = (Ok (), after_block (prefix +:+ ".filtered.gtf") (gtf_body ids EmptyString) w)
  ∧ filter_sam prefix (prefix +:+ ".filtered.sam") ids w
    = (Ok (), after_block (prefix +:+ ".filtered.sam")
                (GMAPSAMReader_header EmptyString +:+ sam_body ids EmptyString) w)
  ∧ filter_faa prefix (prefix +:+ ".filtered.faa") ids w
    = (Ok (), after_block (prefix +:+ ".filtered.faa") (faa_body ids EmptyString) w)
  ∧ (∀ c, files w !! (prefix +:+ ".filtered." +:+ fafq_type_of c) = Some c →
       filter_isoforms prefix (prefix +:+ ".filtered." +:+ fafq_type_of c) ids w
       = (Ok (), after_block (prefix +:+ ".filtered." +:+ fafq_type_of c)
                   (text_of ((λ r, SeqIO_write r (fafq_type_of c))
                               <$> retained ids SeqRecord_id
                                     (SeqIO_parse EmptyString (fafq_type_of c)))) w)).
Proof.
  split_and!.
  - unfold filter_gtf. erewrite bind_Ok; [|reflexivity].
    erewrite bind_Ok; [|apply read_after_truncate].
    erewrite bind_Ok; [|apply for_write_if_kept; cbn; apply lookup_insert_eq].
    by rewrite append_nil_l, after_open_write, print_after.
  - unfold filter_sam. erewrite bind_Ok; [|reflexivity].
    erewrite bind_Ok; [|apply read_after_truncate].
    erewrite bind_Ok; [|reflexivity].
    erewrite bind_Ok; [|apply for_write_if_kept; cbn; apply lookup_insert_eq].
    cbn. rewrite lookup_insert_eq. cbn. rewrite append_nil_l.
    destruct w; unfold set_files, after_block, print_stdout; cbn.
    by rewrite !insert_insert_eq.
  - unfold filter_faa. erewrite bind_Ok; [|reflexivity].
    erewrite bind_Ok; [|apply read_after_truncate].
    erewrite bind_Ok; [|apply for_write_if_kept; cbn; apply lookup_insert_eq].
    by rewrite append_nil_l, after_open_write, print_after.
  - intros c Hc. unfold filter_isoforms.
    erewrite bind_Ok; [|by apply open_read_Some].
    fold (fafq_type_of c).
    erewrite bind_Ok; [|reflexivity].
    erewrite bind_Ok; [|apply read_after_truncate].
    erewrite bind_Ok; [|apply for_write_if_kept; cbn; apply lookup_insert_eq].
    by rewrite append_nil_l, after_open_write, print_after.
Qed.

Lemma retained_empty {A} (idf : A → string) (l : list A) : retained ∅ idf l = [].
Proof.
  unfold retained. induction l as [|r l IH]; [done|].
  rewrite filter_cons_False; [done|]. apply not_elem_of_empty.
Qed.


(** *** The default output prefix *)

Lemma rfind_from_absent (sub s : string) : ∀ i last,
  contains s sub = false → Py.rfind_from sub s i last = last.
Proof.
  induction s as [|c s IH]; intros i last; cbn [contains Py.rfind_from].
  - intros [-> _]%orb_false_iff. done.
  - intros [-> Hs]%orb_false_iff. by apply IH.
Qed.

(** [rfind] returns the position of an occurrence after which there is
    no other. *)
Lemma rfind_from_last (sub a b : string) : ∀ i last,
  String.prefix sub b = true →
  contains (match b with String _ b' => b' | EmptyString => EmptyString end) sub
  = (match b with String _ _ => false | EmptyString => true end) →
  Py.rfind_from sub (a +:+ b) i last = i + Z.of_nat (String.length a).
Proof.
  induction a as [|x a IH]; intros i last Hb Hlater.
  - rewrite append_nil_l. cbn [String.length]. rewrite Z.add_0_r.
    destruct b as [|y b]; cbn [Py.rfind_from]; rewrite Hb; [done|].
    by apply rfind_from_absent.
  - rewrite append_cons. cbn [Py.rfind_from String.length].
    rewrite (IH _ _ Hb Hlater). lia.
Qed.

Lemma contains_char_app (ch : ascii) (a b : string) :
  contains (a +:+ b) (String ch EmptyString)
  = contains a (String ch EmptyString) || contains b (String ch EmptyString).
Proof.
  induction a as [|x a IH]; [done|].
  rewrite append_cons. cbn [contains]. rewrite !prefix_one, IH.
  by destruct (ascii_dec ch x).
Qed.

Lemma substring_skip (a b : string) (n : nat) :
  String.substring (String.length a) n (a +:+ b) = String.substring 0 n b.
Proof. induction a as [|x a IH]; [done|]. by rewrite append_cons. Qed.

Lemma substring_head (a b : string) :
  String.substring 0 (String.length a) (a +:+ b) = a.
Proof.
  induction a as [|x a IH]; [by destruct b|].
  rewrite append_cons. cbn. by rewrite IH.
Qed.

Lemma clamp_in_range (len i : Z) : 0 ≤ i ≤ len → Py.clamp len i = i.
Proof.
  intros Hi. unfold Py.clamp. rewrite bool_decide_eq_false_2 by lia. lia.
Qed.

(** Slicing a string at the two ends of a part of it gives the part. *)
Lemma slice_middle (a b c : string) :
  Py.slice (a +:+ b +:+ c) (Z.of_nat (String.length a))
           (Z.of_nat (String.length a) + Z.of_nat (String.length b)) = b.
Proof.
  unfold Py.slice. rewrite !clamp_in_range by (rewrite !length_append; lia).
  assert (b = EmptyString ∨ (0 < String.length b)%nat) as [->|Hb].
  { destruct b; [by left|right; cbn; lia]. }
  - rewrite bool_decide_eq_false_2; [done|]. cbn [String.length]. lia.
  - rewrite bool_decide_eq_true_2 by lia.
    rewrite Nat2Z.id.
    replace (Z.to_nat _) with (String.length b) by lia.
    rewrite substring_skip. apply substring_head.
Qed.

(** Line 194 on a classification table named
    [<dir>/<name>_classification.txt], where [<name>] has no slash: the
    slice between the last slash and the last "_classification.txt" is
    [<name>]. *)
Lemma default_prefix_is_name (d name : string) :
  contains name "/" = false →
  let c := d +:+ "/" +:+ name +:+ "_classification.txt" in
  Py.slice c (Py.rfind c "/" + 1) (Py.rfind c "_classification.txt") = name.
Proof.
  intros Hname c.
  assert (Py.rfind c "/" = Z.of_nat (String.length d)) as ->.
  { unfold Py.rfind, c.
    change ("/" +:+ name +:+ "_classification.txt")
      with (String "/" (name +:+ "_classification.txt")).
    rewrite rfind_from_last; [lia|by rewrite prefix_one|].
    by rewrite contains_char_app, Hname. }
  assert (Py.rfind c "_classification.txt"
          = Z.of_nat (String.length d) + 1 + Z.of_nat (String.length name)) as ->.
  { unfold Py.rfind, c.
    rewrite <- (append_assoc "/" name), <- (append_assoc d).
    rewrite rfind_from_last; [|done|done].
    rewrite !length_append. cbn [String.length]. lia. }
  replace (Z.of_nat (String.length d) + 1)
    with (Z.of_nat (String.length (d +:+ "/")))
    by (rewrite length_append; cbn [String.length]; lia).
  unfold c. rewrite <- (append_assoc d "/"). apply slice_middle.
Qed.

(** When no output prefix is given and the classification table is
    [<dir>/<name>_classification.txt], the prefix becomes [<name>]; the
    output directory, when not given either, becomes the directory of
    the table.  The notices go to the standard error and nothing else
    changes. *)
Theorem default_output_prefix (args : Args) (w : World) (d name : string) :
  sqanti_class args = d +:+ "/" +:+ name +:+ "_classification.txt" →
  contains name "/" = false →
  output args = None →
  ∃ args' w',
    define_outputs args w = (Ok args', w')
    ∧ output args' = Some name
    ∧ dir args' = Some (default (dirname (sqanti_class args)) (dir args))
    ∧ files w' = files w ∧ stdout w' = stdout w
    ∧ ("Output name not defined. All the outputs will have the prefix " +:+ name)
      ∈ stderr w'.
Proof.
  intros Hc Hname Ho.
  pose proof (default_prefix_is_name d name Hname) as Hslice. cbn zeta in Hslice.
  unfold define_outputs. destruct (dir args) as [dd|] eqn:Hd.
  - rewrite bind_ret_l, Ho, Hc, Hslice. eexists _, _. split; [reflexivity|].
    cbn. rewrite Hd. split_and!; try done. set_solver.
  - erewrite bind_Ok; [|reflexivity]. cbn [output set_dir sqanti_class].
    rewrite Ho, Hc, Hslice. eexists _, _. split; [reflexivity|].
    cbn. split_and!; try done. set_solver.
Qed.

(** *** White space in the inclusion list *)

Lemma no_line_feed_app (a b : string) :
  no_line_feed (a +:+ b) = no_line_feed a && no_line_feed b.
Proof.
  induction a as [|c a IH]; [done|].
  rewrite append_cons. cbn [no_line_feed]. by rewrite IH, andb_assoc.
Qed.

Lemma blank_cons (c : ascii) (s : string) :
  blank (String c s) = true →
  Py.isspace c = true ∧ Ascii.eqb c "010" = false ∧ blank s = true.
Proof.
  cbn [blank]. intros [Hc Hs]%andb_prop.
  apply orb_prop in Hc as [Hc|Hc]; apply Ascii.eqb_eq in Hc; by subst.
Qed.

Lemma blank_no_line_feed (s : string) : blank s = true → no_line_feed s = true.
Proof.
  induction s as [|c s IH]; [done|].
  intros (_ & Hc & Hs)%blank_cons. cbn. rewrite Hc. by apply IH.
Qed.

Lemma no_space_no_line_feed (s : string) : no_space s = true → no_line_feed s = true.
Proof.
  induction s as [|c s IH]; [done|].
  intros [Hc Hs]%no_space_cons. cbn. by rewrite (not_space_not_nl c Hc), IH.
Qed.

Lemma readline_no_line_feed (x rest : string) :
  no_line_feed x = true → Py.readline (x +:+ Py.nl +:+ rest) = x +:+ Py.nl.
Proof.
  induction x as [|c x IH]; [done|]. cbn [no_line_feed].
  intros [Hc Hx]%andb_prop. apply negb_true_iff in Hc.
  rewrite !append_cons. cbn [Py.readline]. by rewrite Hc, IH.
Qed.

Lemma after_line_no_line_feed (x rest : string) :
  no_line_feed x = true → Py.after_line (x +:+ Py.nl +:+ rest) = rest.
Proof.
  induction x as [|c x IH]; [done|]. cbn [no_line_feed].
  intros [Hc Hx]%andb_prop. apply negb_true_iff in Hc.
  rewrite !append_cons. cbn [Py.after_line]. by rewrite Hc, IH.
Qed.

(** Iterating over a text made of lines gives the lines back. *)
Lemma lines_of_text (xs : list string) :
  Forall (λ x, no_line_feed x = true) xs →
  Py.lines (text_of ((λ x, x +:+ Py.nl) <$> xs)) = (λ x, x +:+ Py.nl) <$> xs.
Proof.
  intros Hxs. unfold Py.lines.
  assert (∀ n, (length xs ≤ n)%nat →
               Py.lines_fuel n (text_of ((λ x, x +:+ Py.nl) <$> xs))
               = (λ x, x +:+ Py.nl) <$> xs) as Hfuel.
  { induction Hxs as [|x xs Hx Hxs IH]; intros n Hn; [by destruct n|].
    destruct n as [|n]; [cbn in Hn; lia|].
    change (text_of ((λ x, x +:+ Py.nl) <$> x :: xs))
      with ((x +:+ Py.nl) +:+ text_of ((λ x, x +:+ Py.nl) <$> xs)).
    rewrite append_assoc. cbn [Py.lines_fuel].
    rewrite readline_no_line_feed, after_line_no_line_feed by done.
    rewrite IH by (cbn in Hn; lia). by destruct x. }
  apply Hfuel. clear. induction xs as [|x xs IH]; [done|].
  change (text_of ((λ x, x +:+ Py.nl) <$> x :: xs))
    with ((x +:+ Py.nl) +:+ text_of ((λ x, x +:+ Py.nl) <$> xs)).
  rewrite !length_append. cbn. lia.
Qed.

Lemma lstrip_blank (a t : string) : blank a = true → Py.lstrip (a +:+ t) = Py.lstrip t.
Proof.
  induction a as [|c a IH]; [done|].
  intros (Hc & _ & Ha)%blank_cons.
  rewrite append_cons. cbn [Py.lstrip]. rewrite Hc. by apply IH.
Qed.

Lemma rstrip_blank_line_feed (b : string) :
  blank b = true → Py.rstrip (b +:+ Py.nl) = EmptyString.
Proof.
  induction b as [|c b IH]; [done|].
  intros (Hc & _ & Hb)%blank_cons.
  rewrite append_cons. cbn [Py.rstrip]. by rewrite IH, Hc.
Qed.

Lemma rstrip_clean (i s : string) :
  no_space i = true → Py.rstrip s = EmptyString → Py.rstrip (i +:+ s) = i.
Proof.
  intros Hi Hs. induction i as [|c i IH]; [done|].
  apply no_space_cons in Hi as [Hc Hi].
  rewrite append_cons. cbn [Py.rstrip]. rewrite IH by done.
  destruct i; [by rewrite Hc|done].
Qed.

Lemma strip_padded_line (a i b : string) :
  blank a = true → no_space i = true → blank b = true →
  Py.strip (a +:+ i +:+ b +:+ Py.nl) = i.
Proof.
  intros Ha Hi Hb. unfold Py.strip. rewrite lstrip_blank by done.
  destruct i as [|c i].
  - rewrite append_nil_l. rewrite lstrip_blank by done. reflexivity.
  - destruct (no_space_cons _ _ Hi) as [Hc _].
    rewrite append_cons. cbn [Py.lstrip]. rewrite Hc.
    rewrite <- append_cons. apply rstrip_clean; [done|].
    by apply rstrip_blank_line_feed.
Qed.

(** Blanks and tabs around the identifiers of the inclusion list are
    ignored: when every line is an identifier without white space,
    between two runs of blanks and horizontal tabs that may be empty, the
    set read back is exactly the set of the identifiers. *)
Theorem read_padded_inclusion_list (ls : list (string * string * string)) :
  Forall (λ l, blank l.1.1 = true ∧ no_space l.1.2 = true ∧ blank l.2 = true) ls →
  read_inclusion_list (padded_lines ls) = list_to_set ((λ l, l.1.2) <$> ls).
Proof.
  intros Hls. unfold read_inclusion_list, padded_lines.
  assert (padded_line <$> ls
          = (λ x, x +:+ Py.nl) <$> ((λ l, l.1.1 +:+ l.1.2 +:+ l.2) <$> ls)) as ->.
  { rewrite <- list_fmap_compose. apply list_fmap_ext. intros _ [[a i] b] _.
    unfold padded_line. cbn. by rewrite !append_assoc. }
  rewrite lines_of_text.
  - f_equal. rewrite <- !list_fmap_compose.
    induction Hls as [|[[a i] b] ls (Ha & Hi & Hb) Hls IH]; [done|].
    rewrite !fmap_cons, IH. f_equal. cbn.
    rewrite !append_assoc. by apply strip_padded_line.
  - apply Forall_fmap. eapply Forall_impl; [exact Hls|].
    intros [[a i] b] (Ha & Hi & Hb). cbn.
    rewrite !no_line_feed_app, (blank_no_line_feed a), (blank_no_line_feed b),
      (no_space_no_line_feed i); done.
Qed.

(** *** Loading the module *)

(** What happens when the module is loaded.  When no [Rscript] program
    is found, building the command raises [TypeError]: the message
    "Rscript executable not found! Abort!" is not printed.  That message,
    with exit status -1, is what a program that was found and whose
    [--version] returns a non-zero status gives; with status 0 the module
    goes on with the path found. *)
Theorem module_level_outcomes (find_executable : string → option string)
    (os_system : string → World → Z * World) (w : World) :
  (find_executable "Rscript" = None →
     module_level find_executable os_system w = (Raise TypeError, w))
  ∧ (∀ p, find_executable "Rscript" = Some p →
       let r := os_system (p +:+ " --version") w in
       (r.1 ≠ 0 →
          module_level find_executable os_system w
          = (Exit (-1),
             mkWorld (files r.2) (stdout r.2)
                     (stderr r.2 ++ ["Rscript executable not found! Abort!"])))
       ∧ (r.1 = 0 →
          module_level find_executable os_system w = (Ok (Some p), r.2))).
Proof.
  split.
  - intros Hf. unfold module_level. rewrite Hf. by erewrite bind_Raise.
  - intros p Hf r. unfold module_level. rewrite Hf. split; intros Hr.
    + erewrite bind_Ok; [|reflexivity]. fold r.
      apply Z.eqb_neq in Hr. rewrite Hr. by erewrite bind_Exit; [|reflexivity].
    + erewrite bind_Ok; [|reflexivity]. fold r. by rewrite Hr.
Qed.

(** *** The ML branch from end to end *)

Lemma block_out_format (f : Format) (prefix c : string) :
  block_out f prefix c ∈ format_outputs f prefix.
Proof.
  destruct f; cbn; [|by repeat constructor..].
  destruct (isoforms_out_cases prefix c) as [->| ->]; by repeat constructor.
Qed.

(** At the end of the blocks of [fs], the output of a declared format
    among them holds its body. *)
Lemma foldl_after_format_written (prefix : string) (args : Args) (ids : gset string)
    (w : World) (fs : list Format) :
  NoDup fs →
  ∀ acc f p c,
    f ∈ fs → companion f args = Some p → files w !! p = Some c →
    files (foldl (after_format prefix args ids w) acc fs) !! block_out f prefix c
    = Some (block_body f ids c).
Proof.
  induction 1 as [|g fs Hg Hfs IH]; intros acc f p c Hf Hp Hc.
  - by apply elem_of_nil in Hf.
  - cbn [foldl]. apply elem_of_cons in Hf as [->|Hf]; [|by eapply IH].
    rewrite foldl_step_other.
    + unfold after_format. rewrite Hp, Hc. cbn. apply lookup_insert_eq.
    + intros (g' & Hg' & Hw)%list_elem_of_omap. apply Hg.
      unfold written_path in Hw. destruct (companion g' args) as [p'|]; [|done].
      destruct (files w !! p') as [c'|]; [|done]. injection Hw as Hw.
      assert (g' = g) as <-; [|done].
      apply (format_outputs_disjoint g' g prefix (block_out g' prefix c')).
      * apply block_out_format.
      * rewrite Hw. apply block_out_format.
Qed.


(** *** Identifiers the companion file does not have *)

Lemma retained_agree {A} (ids ids' : gset string) (idf : A → string) (l : list A) :
  (∀ r, r ∈ l → (idf r ∈ ids ↔ idf r ∈ ids')) →
  retained ids idf l = retained ids' idf l.
Proof.
  unfold retained. induction l as [|r l IH]; intros H; [done|].
  assert (idf r ∈ ids ↔ idf r ∈ ids') as Hr by (apply H; by left).
  assert (filter (λ r, idf r ∈ ids) l = filter (λ r, idf r ∈ ids') l) as IH'.
  { apply IH. intros r' Hr'. apply H. by right. }
  destruct (decide (idf r ∈ ids)) as [Hin|Hin].
  - rewrite !filter_cons_True by tauto. by rewrite IH'.
  - rewrite !filter_cons_False by tauto. done.
Qed.

(** Identifiers of the retention set that name no record of a companion
    file are ignored without an error: adding such identifiers to the set
    changes nothing in what the block does. *)
Theorem unknown_identifiers_ignored (f : Format) (prefix p : string)
    (ids extra : gset string) (w : World) (c : string) :
  files w !! p = Some c →
  p ≠ block_out f prefix c →
  (∀ i, i ∈ input_ids f c → i ∉ extra) →
  block f prefix p (ids ∪ extra) w = block f prefix p ids w.
Proof.
  intros Hc Hne Hextra.
  rewrite !(block_ok f prefix p _ w c Hc Hne). do 2 f_equal.
  assert (∀ A (idf : A → string) (l : list A),
            (∀ i, i ∈ idf <$> l → i ∉ extra) →
            retained (ids ∪ extra) idf l = retained ids idf l) as Hret.
  { intros A idf l Hl. apply retained_agree. intros r Hr.
    rewrite elem_of_union. split; [|by left].
    intros [?|Hin]; [done|]. destruct (Hl (idf r)); [|done].
    by apply list_elem_of_fmap_2. }
  destruct f; cbn in *; unfold isoforms_body, gtf_body, sam_body, faa_body;
    by rewrite Hret.
Qed.

(** *** A complete invocation *)

(** With the classification table and the declared companion files in
    place, a threshold in range, an output directory and a prefix, a run
    of the part of [main] before the dispatch that ends normally hands on
    the arguments with the path of the table made absolute, has changed
    the text of no file, has printed the line "Running SQANTI3
    filtering..." on the standard output and nothing on the standard
    error.  The output directory, which lines 190-192 create when it is
    absent, is no part of the state. *)
Theorem complete_invocation_prelude (args : Args) (w : World) (d o : string) :
  is_Some (files w !! abspath (sqanti_class args)) →
  opt_exists w (isoforms args) → opt_exists w (gtf args) →
  opt_exists w (sam args) → opt_exists w (faa args) →
  intrapriming_out_of_range (intrapriming args) = false →
  dir args = Some d →
  output args = Some o →
  ∀ args' w', main_prelude args w = (Ok args', w') →
    args' = set_sqanti_class (abspath (sqanti_class args)) args
    ∧ files w' = files w
    ∧ stdout w' = stdout w ++ [running_message]
    ∧ stderr w' = stderr w.
Proof.
  intros Hc H1 H2 H3 H4 Hin Hd Ho args' w' Hrun.
  set (a := set_sqanti_class (abspath (sqanti_class args)) args) in *.
  assert (main_prelude args w
          = (Ok a, mkWorld (files w) (stdout w ++ [running_message]) (stderr w)))
    as Hend.
  { unfold main_prelude. fold a.
    pose proof (check_common_ok a w Hc H1 H2 H3 H4) as Hcc.
    change (intrapriming a) with (intrapriming args) in Hcc. rewrite Hin in Hcc.
    erewrite bind_Ok; [|exact Hcc].
    assert (define_outputs a w = (Ok a, w)) as Hdef.
    { unfold define_outputs. change (dir a) with (dir args). rewrite Hd.
      rewrite bind_ret_l. change (output a) with (output args). by rewrite Ho. }
    erewrite bind_Ok; [|exact Hdef].
    by erewrite bind_Ok; [|reflexivity]. }
  assert (args' = a
          ∧ w' = mkWorld (files w) (stdout w ++ [running_message]) (stderr w))
    as [-> ->] by (split; congruence).
  done.
Qed.

(** *** The blocks in their order *)

Lemma upto_split (pre post : list Format) (f : Format) :
  all_formats = pre ++ f :: post → pre ++ [f] = upto f.
Proof.
  unfold all_formats.
  destruct pre as [|a [|b [|c [|e pre]]]]; cbn; intros [= ]; subst; try done.
  by destruct pre.
Qed.

(** The guarded blocks of [fs], started after those of [ran] in a state
    that differs from [w] only where these have written, when every block
    still finds its input as it was in [w]. *)
Lemma run_blocks_in_order (prefix : string) (args : Args) (ids : gset string)
    (w : World) (fs : list Format) : ∀ ran acc,
  (∀ q, q ∉ omap (written_path prefix args w) ran → files acc !! q = files w !! q) →
  (∀ pre f post, fs = pre ++ f :: post →
     ∀ p, companion f args = Some p →
       is_Some (files w !! p)
       ∧ p ∉ omap (written_path prefix args w) (ran ++ pre ++ [f])) →
  run_blocks prefix args ids fs acc
  = (Ok (), foldl (after_format prefix args ids w) acc fs).
Proof.
  unfold run_blocks.
  induction fs as [|f fs IH]; intros ran acc Hacc Hin; [done|].
  cbn [for_ foldl].
  assert (∀ pre g post, fs = pre ++ g :: post →
            ∀ p, companion g args = Some p →
              is_Some (files w !! p)
              ∧ p ∉ omap (written_path prefix args w) ((ran ++ [f]) ++ pre ++ [g]))
    as Hin'.
  { intros pre g post -> p Hp. rewrite <- app_assoc.
    exact (Hin (f :: pre) g post eq_refl p Hp). }
  unfold after_format at 2.
  destruct (companion f args) as [p|] eqn:Hp.
  - destruct (Hin [] f fs eq_refl p Hp) as [[c Hc] Hnot]. cbn [app] in Hnot.
    rewrite Hc.
    assert (written_path prefix args w f = Some (block_out f prefix c)) as Hw.
    { unfold written_path. by rewrite Hp, Hc. }
    rewrite omap_app, omap_cons_case, Hw in Hnot.
    apply not_elem_of_app in Hnot as [Hdone Hown].
    apply not_elem_of_cons in Hown as [Hne _].
    erewrite bind_Ok; [|apply block_ok; [by rewrite Hacc|done]].
    apply (IH (ran ++ [f])); [|done].
    intros q Hq. rewrite omap_app, omap_cons_case, Hw in Hq.
    apply not_elem_of_app in Hq as [Hq1 Hq2].
    apply not_elem_of_cons in Hq2 as [Hq2 _].
    cbn. rewrite lookup_insert_ne by done. by apply Hacc.
  - cbn [when_some]. rewrite bind_ret_l.
    apply (IH (ran ++ [f])); [|done].
    intros q Hq. apply Hacc. rewrite omap_app in Hq.
    by apply not_elem_of_app in Hq as [Hq1 _].
Qed.


End Script.

(** *** The properties on the small instance *)

Local Ltac decided := apply (bool_decide_unpack _); vm_compute; exact I.

Local Ltac readable_example :=
  let p := fresh in
  intros p [= <-]; split; decided.

Local Ltac exists_example :=
  let p := fresh in
  first [by intros p [=] | intros p [= <-]; decided].






Lemma run_ML_retention_set_witness :
  run_ML (L:=Example.libs) Example.args_ML Example.ml Example.world
  = (Ok (list_to_set ["PB.1.1"; "PB.3.1"]),
     after_Rscript (L:=Example.libs) Example.args_ML Example.ml Example.world).
Proof.
  destruct (run_ML_retention_set (L:=Example.libs)
              Example.args_ML Example.ml Example.world "/data/out" "run")
    as (_ & Hsome & Hset);
    [reflexivity | reflexivity | exists_example.. | reflexivity |].
  destruct (Hsome (one_per_line ["PB.1.1"; "PB.3.1"]) eq_refl) as [Hrun _].
  rewrite Hrun, Hset by (by repeat constructor). reflexivity.
Defined.

Lemma filter_files_skips_absent_witness :
  files (filter_files (L:=Example.libs) Example.args_rules Example.ids
           Example.world).2 !! "/data/out/run.filtered.fasta"
  = files Example.world !! "/data/out/run.filtered.fasta".
Proof.
  destruct (filter_files_skips_absent (L:=Example.libs) Sequence
              Example.args_rules Example.ids Example.world eq_refl)
    as (_ & _ & Hframe).
  apply (Hframe "/data/out" "run" _ eq_refl eq_refl). by left.
Defined.

Lemma rules_strategy_name_error_witness :
  ∃ w', main (L:=Example.libs) Example.args_rules Example.world
        = (Raise (NameError "run_rules"), w')
        ∧ files w' = files Example.world.
Proof.
  eexists.
  eapply (rules_strategy_name_error (L:=Example.libs)
            Example.args_rules _ Example.rl Example.world);
    [reflexivity | vm_compute; reflexivity | reflexivity].
Defined.

Lemma intrapriming_out_of_range_not_fatal_witness :
  (∃ args' w',
     main_prelude (L:=Example.libs) Example.args_ML_low Example.world = (Ok args', w')
     ∧ intrapriming_message (L:=Example.libs) Example.d0_24 ∈ stderr w'
     ∧ main (L:=Example.libs) Example.args_ML_low Example.world
       = main_ML (L:=Example.libs) args' Example.ml w')
  ∧ (∃ w',
       main (L:=Example.libs) Example.args_ML_low Example.world = (Ok (), w')
       ∧ stderr w' = [intrapriming_message (L:=Example.libs) Example.d0_24]
       ∧ files w' !! "/data/out/run.filtered.sam"
         = Some ("@HD" +:+ Py.nl +:+ "PB.1.1" +:+ Py.nl)).
Proof.
  split.
  - destruct (intrapriming_out_of_range_not_fatal (L:=Example.libs)
                Example.args_ML_low Example.world)
      as (_ & args' & w' & H); [decided | exists_example.. | reflexivity |].
    exists args', w'. exact H.
  - eexists. split; [vm_compute; reflexivity|]. split; vm_compute; reflexivity.
Defined.

Lemma missing_companion_file_witness :
  main (L:=Example.libs) Example.args_missing Example.world
  = (Raise (AttributeError "isoform"), Example.world).
Proof.
  destruct (missing_companion_file (L:=Example.libs)
              Example.args_missing Example.world "/data/absent.fasta")
    as (H & _); [decided | reflexivity |].
  exact (H eq_refl).
Defined.

(** *** The rules decision engine *)

Module RulesEngineFacts.

Import RulesEngine.

Lemma no_unrescued_intrapriming_iff (r : IsoformRecord) :
  no_unrescued_intrapriming r = true ↔ lenient_condition r.
Proof.
  unfold no_unrescued_intrapriming, lenient_condition.
  rewrite orb_true_iff, negb_true_iff. tauto.
Qed.

Lemma junction_support_iff (r : IsoformRecord) :
  junction_support r = true
  ↔ all_junctions_canonical r = true ∨ all_junctions_short_read_supported r = true.
Proof. unfold junction_support. by rewrite orb_true_iff. Qed.

Lemma keep_modifier_aside (p : RulesParameters) (r : IsoformRecord) :
  modifier_aside p r → keep p r = category_test r.
Proof. unfold modifier_aside, keep. by intros ->. Qed.

(** The scenarios of the specification. *)
Example scenario_NIC_intrapriming :
  keep default_parameters
       (mkIsoformRecord "a" NIC true false false true true (Some 5) false None) = false
  ∧ keep default_parameters
         (mkIsoformRecord "a" NIC true true false true true (Some 5) false None) = true.
Proof. done. Qed.

Example scenario_NNC_junctions :
  keep default_parameters
       (mkIsoformRecord "b" NNC false false false false true (Some 5) false None) = true
  ∧ keep default_parameters
         (mkIsoformRecord "b" NNC false false false false false None false None) = false.
Proof. done. Qed.

Example scenario_mono_exonic_FSM :
  keep default_parameters
       (mkIsoformRecord "c" FSM false false false true false None true None) = true
  ∧ keep mono_exonic_filtering
         (mkIsoformRecord "c" FSM false false false true false None true None) = false.
Proof. done. Qed.

(** C1: for a record of category FSM, ISM or NIC the category-specific
    test passes if and only if the record has no intrapriming or has a
    polyA motif, and so does the verdict [keep] whenever the mono-exonic
    modifier does not apply. *)
Theorem keep_FSM_ISM_NIC (p : RulesParameters) (r : IsoformRecord) :
  lenient_category (structural_category r) →
  (category_test r = true ↔ lenient_condition r)
  ∧ (modifier_aside p r → (keep p r = true ↔ lenient_condition r)).
Proof.
  intros Hcat.
  assert (category_test r = true ↔ lenient_condition r) as Htest.
  { unfold category_test.
    destruct Hcat as [-> | [-> | ->]]; apply no_unrescued_intrapriming_iff. }
  split; [done|]. intros Hm. by rewrite (keep_modifier_aside p r Hm).
Qed.

(** C2 as stated does not hold: with the mono-exonic filter on, a
    mono-exonic intergenic record that meets the three conditions is
    discarded. *)
Lemma keep_strict_as_stated_fails :
  ¬ (∀ (p : RulesParameters) (r : IsoformRecord),
       strict_category (structural_category r) →
       (keep p r = true ↔ strict_conditions r)).
Proof.
  intros H.
  destruct (H mono_exonic_filtering intergenic_mono_exon) as [_ Hkeep].
  - right; right; by left.
  - discriminate Hkeep. unfold strict_conditions; cbn. tauto.
Qed.

(** C2, amended: for a record of category NNC, antisense, intergenic or
    genic the category-specific test passes if and only if the three
    conditions hold together (no unrescued intrapriming, no RT switching,
    junctions all canonical or all supported by short reads), and so does
    the verdict [keep] whenever the mono-exonic modifier does not apply. *)
Theorem keep_strict_categories (p : RulesParameters) (r : IsoformRecord) :
  strict_category (structural_category r) →
  (category_test r = true ↔ strict_conditions r)
  ∧ (modifier_aside p r → (keep p r = true ↔ strict_conditions r)).
Proof.
  intros Hcat.
  assert (category_test r = true ↔ strict_conditions r) as Htest.
  { unfold category_test, strict_conditions.
    destruct Hcat as [-> | [-> | [-> | ->]]];
      rewrite !andb_true_iff, negb_true_iff,
        no_unrescued_intrapriming_iff, junction_support_iff;
      unfold lenient_condition; tauto. }
  split; [done|]. intros Hm. by rewrite (keep_modifier_aside p r Hm).
Qed.

Lemma keep_FSM_ISM_NIC_witness :
  keep default_parameters NIC_rescued = true ↔ lenient_condition NIC_rescued.
Proof.
  destruct (keep_FSM_ISM_NIC default_parameters NIC_rescued) as [_ H].
  - right; right; reflexivity.
  - apply H. reflexivity.
Defined.

Lemma keep_strict_categories_witness :
  keep default_parameters intergenic_mono_exon = true
  ↔ strict_conditions intergenic_mono_exon.
Proof.
  destruct (keep_strict_categories default_parameters intergenic_mono_exon) as [_ H].
  - right; right; left; reflexivity.
  - apply H. reflexivity.
Defined.

End RulesEngineFacts.

(** *** Further properties on the small instance *)

Local Ltac all_readable := intros []; cbn; readable_example.





Lemma input_is_output_path_witness :
  filter_isoforms (L:=Example.libs) "/data/out/run" "/data/out/run.filtered.fastq"
    Example.ids Example.world_with_output
  = (Ok (), after_block "/data/out/run.filtered.fastq" EmptyString
              Example.world_with_output).
Proof.
  destruct (input_is_output_path (L:=Example.libs)
              "/data/out/run" Example.ids Example.world_with_output)
    as (_ & _ & _ & Hiso).
  exact (Hiso (Example.three_records "@") eq_refl).
Defined.


Lemma unknown_identifiers_ignored_witness :
  block (L:=Example.libs) Annotation "/data/out/run" "/data/run.gtf"
    (Example.ids ∪ {[ "PB.9.9" ]}) Example.world
  = block (L:=Example.libs) Annotation "/data/out/run" "/data/run.gtf"
      Example.ids Example.world.
Proof.
  apply (unknown_identifiers_ignored (L:=Example.libs) Annotation
           "/data/out/run" "/data/run.gtf" Example.ids {[ "PB.9.9" ]}
           Example.world (Example.three_records "#"));
    [reflexivity | discriminate |].
  intros i Hi Hex. apply elem_of_singleton in Hex as ->.
  revert Hi. decided.
Defined.

Lemma missing_classification_table_witness :
  main (L:=Example.libs) Example.args_no_table Example.world
  = (Exit (-1),
     mkWorld (files Example.world) []
       ["ERROR: /data/absent_classification.txt doesn't exist. Abort!"]).
Proof.
  apply (missing_classification_table (L:=Example.libs)
           Example.args_no_table Example.world).
  reflexivity.
Defined.

Lemma missing_training_file_witness :
  main_ML (L:=Example.libs) Example.args_ML Example.ml_absent_TP Example.world
  = (Exit (-1),
     mkWorld (files Example.world) []
       ["ERROR: /data/absent_TP.txt doesn't exist. Abort!"]).
Proof.
  destruct (missing_training_file (L:=Example.libs) Example.args_ML
              Example.ml_absent_TP Example.world "/data/absent_TP.txt")
    as (H & _); [reflexivity|].
  exact (proj1 (H eq_refl)).
Defined.

Lemma percent_training_out_of_range_exits_witness :
  ∃ w', main_ML (L:=Example.libs) Example.args_ML Example.ml_large_training
          Example.world = (Exit (-1), w')
        ∧ files w' = files Example.world ∧ stdout w' = [].
Proof.
  eexists. split.
  - apply (percent_training_out_of_range_exits (L:=Example.libs));
      [exists_example.. | reflexivity].
  - split; reflexivity.
Defined.

Lemma runAlength_out_of_range_exits_witness :
  main_rules (L:=Example.libs) Example.args_rules Example.rl_short Example.world
  = (Exit (-1),
     mkWorld (files Example.world) []
       ["ERROR: --runAlength must be between 4-20, instead given 3! Abort!"]).
Proof.
  apply (runAlength_out_of_range_exits (L:=Example.libs)
           Example.args_rules Example.rl_short Example.world).
  left. reflexivity.
Defined.

Lemma rules_strategy_never_ends_normally_witness :
  match (main (L:=Example.libs) Example.args_rules Example.world).1 with
  | Ok _ => False
  | _ => True
  end.
Proof.
  pose proof (rules_strategy_never_ends_normally (L:=Example.libs)
                Example.args_rules Example.rl Example.world eq_refl) as H.
  destruct (main (L:=Example.libs) Example.args_rules Example.world) as [[x| |] w'];
    cbn; [exact (H x w' eq_refl) | exact I | exact I].
Defined.

Lemma rules_strategy_writes_nothing_witness :
  files (main (L:=Example.libs) Example.args_rules Example.world).2
  = files Example.world.
Proof.
  apply (rules_strategy_writes_nothing (L:=Example.libs)
           Example.args_rules Example.rl Example.world).
  reflexivity.
Defined.

Lemma default_output_prefix_witness :
  ∃ args' w',
    define_outputs (L:=Example.libs) Example.args_defaults Example.world = (Ok args', w')
    ∧ output args' = Some "run"
    ∧ dir args' = Some "/data".
Proof.
  destruct (default_output_prefix (L:=Example.libs)
              Example.args_defaults Example.world "/data" "run")
    as (args' & w' & Hrun & Hout & Hdir & _); [reflexivity..|].
  exists args', w'. split; [exact Hrun|]. split; [exact Hout|].
  rewrite Hdir. vm_compute. reflexivity.
Defined.

Lemma read_padded_inclusion_list_witness :
  read_inclusion_list (padded_lines Example.padded_example)
  = list_to_set ["PB.1.1"; "PB.3.1"].
Proof.
  apply (read_padded_inclusion_list Example.padded_example).
  repeat constructor.
Defined.


Lemma complete_invocation_prelude_witness :
  ∃ args' w',
    main_prelude (L:=Example.libs) Example.args_ML Example.world = (Ok args', w')
    ∧ args' = Example.args_ML
    ∧ files w' = files Example.world
    ∧ stdout w' = [running_message]
    ∧ stderr w' = [].
Proof.
  exists Example.args_ML,
         (main_prelude (L:=Example.libs) Example.args_ML Example.world).2.
  assert (main_prelude (L:=Example.libs) Example.args_ML Example.world
          = (Ok Example.args_ML,
             (main_prelude (L:=Example.libs) Example.args_ML Example.world).2))
    as Hrun by (vm_compute; reflexivity).
  split; [exact Hrun|].
  exact (complete_invocation_prelude (L:=Example.libs)
           Example.args_ML Example.world "/data/out" "run"
           ltac:(decided) ltac:(exists_example) ltac:(exists_example)
           ltac:(exists_example) ltac:(exists_example)
           eq_refl eq_refl eq_refl _ _ Hrun).
Defined.

Lemma module_level_outcomes_witness :
  module_level (λ _, None) (λ _ w, (0, w)) Example.world
  = (Raise TypeError, Example.world).
Proof.
  destruct (module_level_outcomes (λ _, None) (λ _ w, (0, w)) Example.world)
    as [H _].
  exact (H eq_refl).
Defined.
